(** * canary.py: build-failure triage, classification, log normalisation,
    fingerprint tags and the deduplication gate.

  Shallow embedding of [canary.py].  Text is modelled after UTF-8 decoding
  (line 86 of the script) as a list of code points; the code points covered
  are those below 256, where one Rocq [ascii] is one Python character and
  also one byte of CPython's internal string storage.  The character
  classes of [re] and the tables behind [str.lower] and [str.strip] are the
  Unicode ones restricted to that range. *)

From Stdlib Require Import ZArith List Ascii String Bool Arith Lia Sorted.
From Stdlib Require Import Numbers.DecimalString Numbers.DecimalZ.
Import ListNotations.


(* ================================================================== *)
(** ** Python runtime primitives used by the script *)
(* ================================================================== *)

Module Py.

(** A Python [str]. *)
Definition text := list ascii.

(** String literals of the script. *)
Definition str (s : string) : text := list_ascii_of_string s.
Arguments str s%_string.

Definition code (c : ascii) : N := N_of_ascii c.

Definition in_range (lo hi : N) (c : ascii) : bool :=
  (N.leb lo (code c) && N.leb (code c) hi)%bool.

Definition newline : ascii := ascii_of_N 10.

(** [str.lower] on one character: A-Z, U+00C0-U+00D6 and U+00D8-U+00DE move
    up by 32; every other code point below 256 is its own lower case. *)
Definition lower_char (c : ascii) : ascii :=
  if (in_range 65 90 c || in_range 192 214 c || in_range 216 222 c)%bool
  then ascii_of_N (code c + 32) else c.

Definition lower (s : text) : text := map lower_char s.

(** [str.isspace] below 256, the set [str.strip()] removes. *)
Definition is_space (c : ascii) : bool :=
  (in_range 9 13 c || in_range 28 32 c
   || N.eqb (code c) 133 || N.eqb (code c) 160)%bool.

Fixpoint lstrip (s : text) : text :=
  match s with
  | c :: s' => if is_space c then lstrip s' else s
  | [] => []
  end.

Definition strip (s : text) : text := rev (lstrip (rev (lstrip s))).

(** [s.startswith(p)] *)
Fixpoint startswith (p s : text) : bool :=
  match p, s with
  | [], _ => true
  | a :: p', b :: s' => (Ascii.eqb a b && startswith p' s')%bool
  | _ :: _, [] => false
  end.

(** [p in s] for strings *)
Fixpoint contains (p s : text) : bool :=
  (startswith p s ||
   match s with [] => false | _ :: s' => contains p s' end)%bool.

(** [sep.join(parts)] *)
Fixpoint join (sep : text) (parts : list text) : text :=
  match parts with
  | [] => []
  | [p] => p
  | p :: ps => p ++ sep ++ join sep ps
  end.

(** [s.split(sep)] for a separator of one character; the result is never
    empty. *)
Fixpoint split (sep : ascii) (s : text) : list text :=
  match s with
  | [] => [[]]
  | c :: s' =>
      if Ascii.eqb c sep then [] :: split sep s'
      else match split sep s' with
           | p :: ps => (c :: p) :: ps
           | [] => [[c]]
           end
  end.

(** [l[a:b]] for indices that are not negative. *)
Definition slice {A} (a b : nat) (l : list A) : list A :=
  firstn (b - a) (skipn a l).

(** [x in l] for a list of strings. *)
Definition text_eqb (a b : text) : bool :=
  if list_eq_dec ascii_dec a b then true else false.

Definition mem (x : text) (l : list text) : bool := existsb (text_eqb x) l.

(** [str(n)] for an integer. *)
Definition repr (n : Z) : text := str (NilEmpty.string_of_int (Z.to_int n)).

(** *** The built-in [hash] on strings

    CPython (3.11 and later) hashes a string with SipHash-1-3 over its
    storage bytes, keyed by the two 64-bit words of the per-process hash
    secret.  The secret is fixed when the interpreter starts: read from the
    random source of the system, or derived from [PYTHONHASHSEED] (all
    zero for the seed 0). *)

Local Open Scope Z_scope.

Record HashSecret := { k0 : Z; k1 : Z }.

Definition w64 (x : Z) : Z := x mod 2 ^ 64.

Definition rotl (x : Z) (b : Z) : Z :=
  w64 (Z.lor (Z.shiftl x b) (Z.shiftr x (64 - b))).

Definition sipstate := (Z * Z * Z * Z)%type.

(** [HALF_ROUND(a,b,c,d,s,t)] *)
Definition half_round (a b c d s t : Z) : sipstate :=
  let a := w64 (a + b) in
  let c := w64 (c + d) in
  let b := Z.lxor (rotl b s) a in
  let d := Z.lxor (rotl d t) c in
  let a := rotl a 32 in
  (a, b, c, d).

(** [SINGLE_ROUND(v0,v1,v2,v3)] *)
Definition single_round (v : sipstate) : sipstate :=
  let '(v0, v1, v2, v3) := v in
  let '(v0, v1, v2, v3) := half_round v0 v1 v2 v3 13 16 in
  let '(v2, v1, v0, v3) := half_round v2 v1 v0 v3 17 21 in
  (v0, v1, v2, v3).

(** Little-endian value of up to eight bytes. *)
Fixpoint le_bytes (bs : list ascii) : Z :=
  match bs with
  | [] => 0
  | b :: bs' => Z.of_N (code b) + 256 * le_bytes bs'
  end.

Definition absorb (v : sipstate) (m : Z) : sipstate :=
  let '(v0, v1, v2, v3) := v in
  let '(v0, v1, v2, v3) := single_round (v0, v1, v2, Z.lxor v3 m) in
  (Z.lxor v0 m, v1, v2, v3).

(** The loop over whole 8-byte words; returns the state and the tail of
    fewer than eight bytes. *)
Fixpoint sip_blocks (fuel : nat) (v : sipstate) (bs : list ascii)
  : sipstate * list ascii :=
  match fuel with
  | O => (v, bs)
  | S fuel' =>
      if Nat.leb 8%nat (List.length bs)
      then sip_blocks fuel' (absorb v (le_bytes (firstn 8%nat bs))) (skipn 8%nat bs)
      else (v, bs)
  end.

Definition siphash13 (key0 key1 : Z) (src : list ascii) : Z :=
  let b := w64 (Z.shiftl (Z.of_nat (List.length src)) 56) in
  let v := (Z.lxor key0 0x736f6d6570736575, Z.lxor key1 0x646f72616e646f6d,
            Z.lxor key0 0x6c7967656e657261, Z.lxor key1 0x7465646279746573) in
  let '(v, tail) := sip_blocks (List.length src) v src in
  let b := Z.lor b (le_bytes tail) in
  let '(v0, v1, v2, v3) := absorb v b in
  let v2 := Z.lxor v2 0xff in
  let '(v0, v1, v2, v3) :=
    single_round (single_round (single_round (v0, v1, v2, v3))) in
  Z.lxor (Z.lxor v0 v1) (Z.lxor v2 v3).

(** Reinterpretation of a 64-bit word as the signed [Py_hash_t]. *)
Definition signed64 (x : Z) : Z := if x <? 2 ^ 63 then x else x - 2 ^ 64.

(** [hash(s)] for a string [s]: 0 for the empty string, and -1 is never
    returned. *)
Definition hash (secret : HashSecret) (s : text) : Z :=
  match s with
  | [] => 0
  | _ =>
      let x := signed64 (siphash13 (k0 secret) (k1 secret) s) in
      if x =? -1 then -2 else x
  end.

End Py.

(* ================================================================== *)
(** ** The fragment of [re] the script uses *)
(* ================================================================== *)

Module Re.
Import Py.

(** Every repetition in the script's patterns is over a single character
    class, so a pattern is a sequence of atoms: one character of a class,
    or a greedy bounded repetition of a class.  A capturing group of the
    script always encloses exactly one atom. *)
Inductive atom :=
| Chr (cls : ascii -> bool)
| Rep (cls : ascii -> bool) (lo : nat) (hi : option nat).

Inductive item := It (capture : bool) (a : atom).

Definition regex := list item.

(** Character classes. *)
Definition exactly (c : ascii) : ascii -> bool := Ascii.eqb c.
Arguments exactly c%_char.
Definition dot (c : ascii) : bool := negb (Ascii.eqb c newline).
Definition digit : ascii -> bool := in_range 48 57.
Definition word (c : ascii) : bool :=
  (in_range 48 57 c || in_range 65 90 c || exactly "_" c || in_range 97 122 c
   || exactly (ascii_of_N 170) c || in_range 178 179 c || exactly (ascii_of_N 181) c
   || in_range 185 186 c || in_range 188 190 c || in_range 192 214 c
   || in_range 216 246 c || in_range 248 255 c)%bool.

(** Pattern syntax. *)
Definition lit (s : string) : regex :=
  map (fun c => It false (Chr (exactly c))) (str s).
Arguments lit s%_string.
Definition one cls : regex := [It false (Chr cls)].
Definition plus cls : regex := [It false (Rep cls 1 None)].
Definition star cls : regex := [It false (Rep cls 0 None)].
Definition times cls n : regex := [It false (Rep cls n (Some n))].
Definition group (r : regex) : regex :=
  map (fun i => match i with It _ a => It true a end) r.

Definition may_take (hi : option nat) : bool :=
  match hi with Some O => false | _ => true end.

Definition less (hi : option nat) : option nat := option_map pred hi.

Section Repeat.
Variable cls : ascii -> bool.
Variable k : text -> option (list text).

(** Greedy repetition with backtracking: one more character is tried
    before stopping here; stopping needs the lower bound reached and the
    rest of the pattern to match. *)
Fixpoint rep_match (lo : nat) (hi : option nat) (s : text) {struct s}
  : option (text * list text) :=
  let stop :=
    match lo with
    | O => option_map (pair []) (k s)
    | S _ => None
    end in
  match s with
  | c :: s' =>
      if (cls c && may_take hi)%bool then
        match rep_match (pred lo) (less hi) s' with
        | Some (p, ps) => Some (c :: p, ps)
        | None => stop
        end
      else stop
  | [] => stop
  end.
End Repeat.

(** Matching a pattern at the start of [s]; on success, the text each
    atom consumed, in order. *)
Fixpoint match_items (r : regex) (s : text) {struct r} : option (list text) :=
  match r with
  | [] => Some []
  | It _ (Chr cls) :: r' =>
      match s with
      | c :: s' =>
          if cls c then option_map (cons [c]) (match_items r' s') else None
      | [] => None
      end
  | It _ (Rep cls lo hi) :: r' =>
      option_map (fun '(p, ps) => p :: ps)
                 (rep_match cls (match_items r') lo hi s)
  end.

(** The match object of [re.match(r, s)]. *)
Record Match := { pieces : list text; pattern : regex }.

Definition re_match (r : regex) (s : text) : option Match :=
  option_map (fun ps => {| pieces := ps; pattern := r |}) (match_items r s).

(** Length of the whole match, [m.end() - m.start()]. *)
Definition span (m : Match) : nat := List.length (List.concat (pieces m)).

Fixpoint captures (r : regex) (ps : list text) : list text :=
  match r, ps with
  | It true _ :: r', p :: ps' => p :: captures r' ps'
  | It false _ :: r', _ :: ps' => captures r' ps'
  | _, _ => []
  end.

(** [m.group(n)] for [n >= 1]. *)
Definition group_of (m : Match) (n : nat) : text :=
  nth (n - 1) (captures (pattern m) (pieces m)) [].

(** [re.sub(r, '', s)]: scanning from the left, every match is removed
    and the scan resumes after it.  [skip] counts the characters of the
    current match still to drop.  An empty match removes nothing. *)
Fixpoint sub_from (r : regex) (skip : nat) (s : text) : text :=
  match s with
  | [] => []
  | c :: s' =>
      match skip with
      | S n => sub_from r n s'
      | O =>
          match re_match r s with
          | Some m =>
              match span m with
              | S n => sub_from r n s'
              | O => c :: sub_from r 0 s'
              end
          | None => c :: sub_from r 0 s'
          end
      end
  end.

Definition sub (r : regex) (s : text) : text := sub_from r 0 s.

(** [re.search(r, s) is not None] *)
Fixpoint search (r : regex) (s : text) : bool :=
  match re_match r s with
  | Some _ => true
  | None => match s with [] => false | _ :: s' => search r s' end
  end.

(** *** What a pattern accepts

    The pieces a successful match may consist of, stated without reference
    to the search order of the matcher. *)

Definition within (lo : nat) (hi : option nat) (n : nat) : Prop :=
  lo <= n /\ match hi with Some h => n <= h | None => True end.

Fixpoint accepts (r : regex) (ps : list text) : Prop :=
  match r, ps with
  | [], [] => True
  | It _ (Chr cls) :: r', p :: ps' =>
      (exists c, p = [c] /\ cls c = true) /\ accepts r' ps'
  | It _ (Rep cls lo hi) :: r', p :: ps' =>
      forallb cls p = true /\ within lo hi (List.length p) /\ accepts r' ps'
  | _, _ => False
  end.

Definition class_of (i : item) : ascii -> bool :=
  match i with It _ (Chr cls) => cls | It _ (Rep cls _ _) => cls end.

(** No atom of the pattern can consume a line break. *)
Definition nl_free (r : regex) : bool :=
  forallb (fun i => negb (class_of i newline)) r.


(** The text up to the first line break. *)
Fixpoint first_line (s : text) : text :=
  match s with
  | [] => []
  | c :: s' => if Ascii.eqb c newline then [] else c :: first_line s'
  end.

End Re.

(* ================================================================== *)
(** ** The script *)
(* ================================================================== *)

Module Canary.
Import Py Re.

(** *** Inputs and effects

    The script reads its arguments, the result of the build it ran
    ([run], lines 45-79), and the world outside: the hash secret of the
    interpreter, the random jitter, the answers of the issue search, of
    [git], [nix] and [gh], the configuration file and two environment
    variables.  Every call that leaves the interpreter can also raise.
    What the script does to the world is recorded as a trace of events; the
    lines it prints are left out. *)

Record Args := { attr : text; cc : list text; nixpkgs : text }.

(** [stderr] holds the captured lines after [line.decode("utf-8")]. *)
Record ProcessResult := {
  returncode : Z;
  stdout : list text;
  stderr : list text
}.

Inductive Exn :=
| IndexError | RequestError | OSError | CalledProcessError
| KeyError | TypeError | ValueError.

(** What an expression that calls out gives: a value, or an exception. *)
Inductive Result (A : Type) := Ok (a : A) | Raises (e : Exn).
Arguments Ok {A} a.
Arguments Raises {A} e.

(** The value under ["github"] of one maintainer entry: a string, or some
    other JSON value, of which the script only uses what an f-string shows
    for it. *)
Inductive Handle := HStr (s : text) | HOther (shown : text).

(** What lines 232-238 make of one [nix eval]: an exception
    ([subprocess.run] cannot start [nix]; the output is not UTF-8 or not
    JSON; it is not a list of objects; an entry has no ["github"]), a
    non-zero return code, or the values under ["github"]. *)
Inductive Lookup :=
| LookupRaises (e : Exn)
| LookupFails
| LookupGives (handles : list Handle).

Record World := {
  hash_secret : HashSecret;
  (** [random.randint(0, 15 * 60)] *)
  jitter : Z;
  (** [total_count] answered to the n-th search query; [None] when the
      request or the decoding of its answer raises *)
  search_issues : nat -> text -> option Z;
  (** decoded output of [git log -1 --pretty=format:%H], or what
      [subprocess.run] or [decode] raises *)
  git_log : Result text;
  (** what [nix eval] for an attribute leads to *)
  nix_eval_maintainers : text -> Lookup;
  (** contents of [~/.config/nixpkgs/config.nix]; [None] when [open] or
      [read] raises *)
  config_nix : option text;
  (** decoded output of [nix-info -m], or what [subprocess.run] or
      [decode] raises *)
  nix_info_out : Result text;
  GITHUB_REPOSITORY : option text;
  GITHUB_RUN_ID : option text;
  (** return code of [gh] for an argument list, or what [subprocess.run]
      raises when it cannot start [gh] *)
  gh : list text -> Result Z
}.

Inductive Event :=
| Sleep (seconds : Z)
| SearchIssues (query : text) (total_count : option Z)
| GitLog
| NixEval (attribute : text)
| OpenConfig
| NixInfo
| GhNotStarted (argv : list text)
| GhIssueCreate (argv : list text) (rc : Z).

(** How the script ends: [sys.exit(code)], with the argument it is given,
    or an exception nobody catches. *)
Inductive Outcome := Exit (code : Z) | Uncaught (e : Exn).

(** The exit status the process ends with: the low eight bits of the
    argument of [sys.exit] (an argument in the range of a C [int], as every
    return code of [poll()] is), and 1 after an uncaught exception. *)
Definition exit_status (o : Outcome) : Z :=
  match o with
  | Exit code => (code mod 256)%Z
  | Uncaught _ => 1%Z
  end.

Inductive Step (A : Type) := Continue (a : A) | Stop (o : Outcome).
Arguments Continue {A} a.
Arguments Stop {A} o.

(** A piece of the script: it extends the trace and either goes on with a
    value or ends the process. *)
Definition Script (A : Type) := list Event -> list Event * Step A.

Definition ret {A} (a : A) : Script A := fun t => (t, Continue a).

Definition bind {A B} (c : Script A) (k : A -> Script B) : Script B :=
  fun t =>
    match c t with
    | (t', Continue a) => k a t'
    | (t', Stop o) => (t', Stop o)
    end.

Definition emit (e : Event) : Script unit := fun t => (t ++ [e], Continue tt).

Definition sys_exit {A} (code : Z) : Script A := fun t => (t, Stop (Exit code)).

Definition raise {A} (e : Exn) : Script A := fun t => (t, Stop (Uncaught e)).

Notation "x <- c ;; k" := (bind c (fun x => k))
  (at level 61, c at next level, right associativity).
Notation "c ;;; k" := (bind c (fun _ => k))
  (at level 61, right associativity).

(** Running the whole script: the trace and the way the process ended.  A
    script that runs off its last line exits with 0. *)
Definition run_script (c : Script unit) : list Event * Outcome :=
  match c [] with
  | (t, Continue _) => (t, Exit 0)
  | (t, Stop o) => (t, o)
  end.

(** *** Lines 17-18 *)

Definition DONT_ASSIGN : list text := [str "dotlambda"; str "SuperSandro2000"].

(** *** Lines 85-122: finding the failure *)

Definition first_error_line_re : regex :=
  lit "error: builder for '/nix/store/" ++ group (times word 32) ++ lit "-"
  ++ group (star dot) ++ one dot ++ lit "drv' failed with exit code "
  ++ plus digit ++ lit ";".

Fixpoint enumerate_from {A} (ix : nat) (l : list A) : list (nat * A) :=
  match l with
  | [] => []
  | x :: l' => (ix, x) :: enumerate_from (S ix) l'
  end.

Definition enumerate {A} (l : list A) : list (nat * A) := enumerate_from 0 l.

(** The list comprehension of lines 101-105. *)
Fixpoint matching_lines (l : list (nat * text)) : list (nat * Match) :=
  match l with
  | [] => []
  | (ix, line) :: l' =>
      match re_match first_error_line_re line with
      | Some m => (ix, m) :: matching_lines l'
      | None => matching_lines l'
      end
  end.

Definition first_error_line_ (stderr_utf8 : list text) : list (nat * Match) :=
  matching_lines (enumerate stderr_utf8).

Definition last_10_log_lines (stderr_utf8 : list text) (first_error_line_ix : nat)
  : list text :=
  slice (first_error_line_ix + 2) (first_error_line_ix + 12) stderr_utf8.

(** *** Lines 124-147: the substitution passes *)

Definition decimal_seconds_re : regex :=
  plus digit ++ one dot ++ plus digit ++ lit "s".
Definition clock_re : regex :=
  plus digit ++ lit ":" ++ plus digit ++ lit ":" ++ plus digit.
Definition minutes_re : regex := plus digit ++ lit " minutes".
Definition seconds_re : regex := plus digit ++ lit " seconds".
Definition store_path_re : regex := lit "/nix/store/" ++ times word 32.
(** The class [[,\d+]]: a comma, a digit or a plus sign. *)
Definition counter (c : ascii) : bool :=
  (exactly "," c || digit c || exactly "+" c)%bool.
Definition bazel_re : regex :=
  lit "> [" ++ star counter ++ lit " / " ++ star counter ++ lit "] "
  ++ star dot.
Definition info_re : regex := lit "> INFO:" ++ star dot.
Definition semver_re : regex :=
  plus digit ++ lit "." ++ plus digit ++ lit "." ++ plus digit.

Definition last_10_log_lines_pure (last_10 : list text) : text :=
  let pure := sub decimal_seconds_re (join [] last_10) in
  let pure := sub clock_re pure in
  let pure := sub minutes_re pure in
  let pure := sub seconds_re pure in
  let pure := sub store_path_re pure in
  let pure := sub bazel_re pure in
  let pure := sub info_re pure in
  let pure := sub semver_re pure in
  pure.

(** *** Lines 149-152: the two tags *)

Definition logs_tag (secret : HashSecret) (failing_pname_version pure : text) : Z :=
  hash secret (str "nixpkgs-upkeep " ++ failing_pname_version ++ str " " ++ pure).

Definition drv_tag (secret : HashSecret) (failing_drv_hash : text) : Z :=
  hash secret (str "nixpkgs-upkeep " ++ failing_drv_hash).



(** *** Lines 155-171: the search for an existing issue *)

Definition search_query (tag : Z) : text :=
  repr tag ++ str " org:NixOS repo:nixpkgs is:issue author:samuela".

Definition find_existing_issues (w : World) (nth_query : nat) (tag : Z)
  : Script unit :=
  let q := search_query tag in
  let answer := search_issues w nth_query q in
  emit (SearchIssues q answer) ;;;
  match answer with
  | None => raise RequestError
  | Some existing_issues_count =>
      if (existing_issues_count >? 0)%Z then sys_exit 0 else ret tt
  end.

(** *** Lines 193-215 *)

Definition split_pname_version (pname_version : text) : text * text :=
  let pieces := split "-" pname_version in
  (join (str "-") (removelast pieces), last pieces []).

Definition pname_to_attr (pname : text) : text :=
  if startswith (str "python3.9-") pname
  then str "python39Packages." ++ skipn 10 pname
  else if startswith (str "python3.10-") pname
  then str "python310Packages." ++ skipn 11 pname
  else if startswith (str "python3.11-") pname
  then str "python311Packages." ++ skipn 11 pname
  else if startswith (str "python3.12-") pname
  then str "python312Packages." ++ skipn 11 pname
  else if text_eqb pname (str "bazel-build-jaxlib")
  then str "python3Packages.jaxlib"
  else pname.

(** *** Lines 231-241 *)

(** [subprocess.run] raises [ValueError] for an argument that holds a
    NUL character, before it starts anything. *)
Definition has_nul (s : text) : bool := existsb (Ascii.eqb zero) s.

Definition nix_eval (w : World) (a : text) : Result (list Handle) :=
  if has_nul a then Raises ValueError else
  match nix_eval_maintainers w a with
  | LookupRaises e => Raises e
  | LookupFails => Ok []
  | LookupGives handles => Ok handles
  end.

Definition get_maintainers (w : World) (a : text) : Script (list Handle) :=
  emit (NixEval a) ;;;
  match nix_eval w a with
  | Raises e => raise e
  | Ok handles => ret handles
  end.

(** *** Lines 261-294: the text of the issue *)

Definition getenv (v : option text) (default : text) : text :=
  match v with Some x => x | None => default end.

Definition github_workflow_url (w : World) : text :=
  str "https://github.com/"
  ++ getenv (GITHUB_REPOSITORY w) (str "<GITHUB_REPOSITORY>")
  ++ str "/actions/runs/" ++ getenv (GITHUB_RUN_ID w) (str "<GITHUB_RUN_ID>").

(** What an f-string shows for a handle. *)
Definition shown_as (m : Handle) : text :=
  match m with HStr s => s | HOther shown => shown end.

Definition mentions (handles : list Handle) : text :=
  join (str " ") (map (fun m => str "@" ++ shown_as m) handles).

Definition mentions_cc (handles : list text) : text :=
  join (str " ") (map (fun m => str "@" ++ m) handles).

Definition issue_body (a : Args) (w : World) (stderr_utf8 : list text)
    (first_error_line_ix : nat) (failing_attr commit : text)
    (attr_maintainers failing_attr_maintainers : list Handle)
    (nixpkgs_config nix_info : text) (logs drv : Z) : text :=
  join [newline] [
    [];
    str "## Issue description";
    str "Build of `" ++ failing_attr ++ str "` failed on x86_64-linux as of "
      ++ commit ++ str ". This is currently breaking `" ++ attr a ++ str "`.";
    [];
    str "```";
    strip (join [] (skipn first_error_line_ix stderr_utf8));
    str "```";
    [];
    str "[full build log](" ++ github_workflow_url w ++ str ")";
    [];
    attr a ++ str " maintainers cc: " ++ mentions attr_maintainers;
    failing_attr ++ str " maintainers cc: " ++ mentions failing_attr_maintainers;
    str "Other cc: "
      ++ (if Nat.ltb 0 (List.length (cc a)) then mentions_cc (cc a)
          else str "n/a");
    [];
    str "### Steps to reproduce";
    str "1. Checkout nixpkgs at commit " ++ commit;
    str "2. Run `nix-build -A " ++ failing_attr ++ str "`";
    [];
    str "## Technical details";
    str "```";
    str " " ++ nix_info;
    str "```";
    [];
    str "Contents of `~/.config/nixpkgs/config.nix`:";
    str "```";
    nixpkgs_config;
    str "```";
    [];
    str "## Misc.";
    str "This issue was automatically generated by [nixpkgs-upkeep](https://github.com/samuela/nixpkgs-upkeep).";
    str "- [CI workflow](" ++ github_workflow_url w ++ str ") that created this issue.";
    str "- Internal tags: " ++ repr logs ++ str " " ++ repr drv;
    []
  ].

(** *** Lines 296-314: the arguments of [gh issue create] *)

(** [x not in DONT_ASSIGN]: a value that is not a string equals none of
    the two names. *)
Definition not_in_DONT_ASSIGN (x : Handle) : bool :=
  match x with
  | HStr s => negb (mem s DONT_ASSIGN)
  | HOther _ => true
  end.

(** [",".join] of strings; it raises [TypeError] on any other value. *)
Fixpoint strings (l : list Handle) : option (list text) :=
  match l with
  | [] => Some []
  | HStr s :: l' => option_map (cons s) (strings l')
  | HOther _ :: _ => None
  end.

Definition assignee (failing_attr_maintainers : list Handle) : option text :=
  option_map (join (str ","))
             (strings (filter not_in_DONT_ASSIGN failing_attr_maintainers)).

Definition gh_argv (failing_attr commit body assignees : text) : list text :=
  [ str "gh"; str "issue"; str "create"; str "--repo"; str "NixOS/nixpkgs";
    str "--label"; str "0.kind: build failure"; str "--assignee";
    assignees;
    str "--title";
    str "`" ++ failing_attr ++ str "` build failure on x86_64-linux as of `"
      ++ firstn 8 commit ++ str "`";
    str "--body"; body ].

Definition gh_run (w : World) (argv : list text) : Result Z :=
  if existsb has_nul argv then Raises ValueError else gh w argv.

(** *** The script from line 81 to its end *)

Definition main (a : Args) (w : World) (build_result : ProcessResult)
  : Script unit :=
  if (returncode build_result =? 0)%Z then sys_exit 0 else
  let stderr_utf8 := stderr build_result in
  if contains (str "no space left on device") (lower (join [] stderr_utf8))
  then sys_exit 0 else
  if contains (str "Killed") (join [] stderr_utf8) then sys_exit 0 else
  if negb (Nat.eqb (List.length (first_error_line_ stderr_utf8)) 1)
  then sys_exit (returncode build_result) else
  match first_error_line_ stderr_utf8 with
  | [] => raise IndexError
  | (first_error_line_ix, m) :: _ =>
      let failing_drv_hash := group_of m 1 in
      let failing_pname_version := group_of m 2 in
      let pure :=
        last_10_log_lines_pure (last_10_log_lines stderr_utf8 first_error_line_ix) in
      let logs := logs_tag (hash_secret w) failing_pname_version pure in
      let drv := drv_tag (hash_secret w) failing_drv_hash in
      emit (Sleep (jitter w)) ;;;
      find_existing_issues w 0 logs ;;;
      find_existing_issues w 1 drv ;;;
      let '(failing_pname, failing_version) :=
        split_pname_version failing_pname_version in
      let failing_attr := pname_to_attr failing_pname in
      emit GitLog ;;;
      match git_log w with
      | Raises e => raise e
      | Ok git_stdout =>
      let commit := strip git_stdout in
      attr_maintainers <- get_maintainers w (attr a) ;;
      failing_attr_maintainers <- get_maintainers w failing_attr ;;
      emit OpenConfig ;;;
      match config_nix w with
      | None => raise OSError
      | Some config =>
      let nixpkgs_config := strip config in
      emit NixInfo ;;;
      match nix_info_out w with
      | Raises e => raise e
      | Ok nix_info_stdout =>
      let nix_info := strip nix_info_stdout in
      let body :=
        issue_body a w stderr_utf8 first_error_line_ix failing_attr commit
                   attr_maintainers failing_attr_maintainers
                   nixpkgs_config nix_info logs drv in
      match assignee failing_attr_maintainers with
      | None => raise TypeError
      | Some assignees =>
      let argv := gh_argv failing_attr commit body assignees in
      match gh_run w argv with
      | Raises e => emit (GhNotStarted argv) ;;; raise e
      | Ok rc =>
          emit (GhIssueCreate argv rc) ;;;
          if negb (rc =? 0)%Z then raise CalledProcessError else
          sys_exit (returncode build_result)
      end end end end end
  end.

(** *** The classification of section 4.2, read off lines 81-122 *)

Record FailureRecord := {
  failing_drv_hash : text;
  failing_pname_version : text;
  excerpt : list text
}.

Inductive Reason := NoSpaceLeft | Killed.

Inductive Classification :=
| Success
| NotReportable (why : Reason)
| Unclassifiable
| Classified (ix : nat) (rec : FailureRecord).

Definition classify (build_result : ProcessResult) : Classification :=
  if (returncode build_result =? 0)%Z then Success else
  let stderr_utf8 := stderr build_result in
  if contains (str "no space left on device") (lower (join [] stderr_utf8))
  then NotReportable NoSpaceLeft else
  if contains (str "Killed") (join [] stderr_utf8)
  then NotReportable Killed else
  match first_error_line_ stderr_utf8 with
  | [(first_error_line_ix, m)] =>
      Classified first_error_line_ix
        {| failing_drv_hash := group_of m 1;
           failing_pname_version := group_of m 2;
           excerpt := last_10_log_lines stderr_utf8 first_error_line_ix |}
  | _ => Unclassifiable
  end.

(** *** Observations on a run *)

Definition trace (a : Args) (w : World) (r : ProcessResult) : list Event :=
  fst (run_script (main a w r)).

Definition outcome (a : Args) (w : World) (r : ProcessResult) : Outcome :=
  snd (run_script (main a w r)).

(** The trace holds a call of [gh]. *)
Definition reported (t : list Event) : bool :=
  existsb (fun e => match e with GhIssueCreate _ _ => true | _ => false end) t.

(** The trace holds an issue that [gh] filed with return code 0. *)
Definition submitted (t : list Event) : bool :=
  existsb (fun e => match e with
                    | GhIssueCreate _ rc => (rc =? 0)%Z
                    | _ => false
                    end) t.

(** The search answered some query of the run with a count above zero. *)
Definition found_existing (t : list Event) : bool :=
  existsb (fun e => match e with
                    | SearchIssues _ (Some n) => (n >? 0)%Z
                    | _ => false
                    end) t.

(** Events of the calls between the searches and the return of [gh]. *)
Definition calls_only (t : list Event) : bool :=
  forallb (fun e => match e with
                    | GitLog | NixEval _ | OpenConfig | NixInfo
                    | GhNotStarted _ => true
                    | _ => false
                    end) t.

(** The ways a run can go, by its trace and its end, for a build that
    returned [rc]. *)
Inductive run_shape (rc : Z) : list Event -> Outcome -> Prop :=
| shape_nothing_to_report :
    run_shape rc [] (Exit 0)
| shape_unclassifiable :
    rc <> 0%Z -> run_shape rc [] (Exit rc)
| shape_logs_search_raises j q1 :
    run_shape rc [Sleep j; SearchIssues q1 None] (Uncaught RequestError)
| shape_logs_tag_known j q1 n1 :
    (n1 >? 0)%Z = true ->
    run_shape rc [Sleep j; SearchIssues q1 (Some n1)] (Exit 0)
| shape_drv_search_raises j q1 n1 q2 :
    (n1 >? 0)%Z = false ->
    run_shape rc [Sleep j; SearchIssues q1 (Some n1); SearchIssues q2 None]
              (Uncaught RequestError)
| shape_drv_tag_known j q1 n1 q2 n2 :
    (n1 >? 0)%Z = false -> (n2 >? 0)%Z = true ->
    run_shape rc [Sleep j; SearchIssues q1 (Some n1); SearchIssues q2 (Some n2)]
              (Exit 0)
| shape_raises j q1 n1 q2 n2 t e :
    (n1 >? 0)%Z = false -> (n2 >? 0)%Z = false -> calls_only t = true ->
    run_shape rc (Sleep j :: SearchIssues q1 (Some n1)
                  :: SearchIssues q2 (Some n2) :: t)
              (Uncaught e)
| shape_gh_fails j q1 n1 q2 n2 t argv gh_rc :
    (n1 >? 0)%Z = false -> (n2 >? 0)%Z = false -> (gh_rc =? 0)%Z = false ->
    calls_only t = true ->
    run_shape rc (Sleep j :: SearchIssues q1 (Some n1)
                  :: SearchIssues q2 (Some n2)
                  :: t ++ [GhIssueCreate argv gh_rc])
              (Uncaught CalledProcessError)
| shape_filed j q1 n1 q2 n2 t argv gh_rc :
    rc <> 0%Z ->
    (n1 >? 0)%Z = false -> (n2 >? 0)%Z = false -> (gh_rc =? 0)%Z = true ->
    calls_only t = true ->
    run_shape rc (Sleep j :: SearchIssues q1 (Some n1)
                  :: SearchIssues q2 (Some n2)
                  :: t ++ [GhIssueCreate argv gh_rc])
              (Exit rc).

(** A line the failure-marker grammar matches, and how many there are. *)
Definition is_marker_line (line : text) : bool :=
  match re_match first_error_line_re line with
  | Some _ => true
  | None => false
  end.

Definition marker_count (stderr_utf8 : list text) : nat :=
  List.length (filter is_marker_line stderr_utf8).


End Canary.

(* ================================================================== *)
(** ** Sample runs *)
(* ================================================================== *)

Module Samples.
Import Py Re Canary.

Definition eol (s : string) : text := str s ++ [newline].
Arguments eol s%_string.

(** The marker line of a failed build of [foo-1.2.3]. *)
Definition foo_marker : text :=
  str "error: builder for '/nix/store/abcdefghijklmnopqrstuvwxyz123456-foo-1.2.3.drv' failed with exit code 1;".

Definition foo_hash : text := str "abcdefghijklmnopqrstuvwxyz123456".

Definition ten_lines : list text :=
  [ eol "> checking for gcc... gcc";
    eol "> checking whether the C compiler works... yes";
    eol "> checking for suffix of executables...";
    eol "> checking for stdlib.h... yes";
    eol "> checking for libbar... no";
    eol "> configure: error: libbar is required";
    eol "> see config.log for details";
    eol "> hint: add libbar to buildInputs";
    eol "> exiting";
    eol "For full logs, run 'nix log /nix/store/abcdefghijklmnopqrstuvwxyz123456-foo-1.2.3.drv'." ].

(** A failed build whose log has ten lines after the header. *)
Definition foo_failed : ProcessResult :=
  {| returncode := 1;
     stdout := [];
     stderr := (foo_marker ++ [newline]) :: eol "       last 10 log lines:"
               :: ten_lines |}.

(** A failed build that printed only three lines of log. *)
Definition foo_failed_short : ProcessResult :=
  {| returncode := 1;
     stdout := [];
     stderr := [ foo_marker ++ [newline];
                 eol "       last 3 log lines:";
                 eol "> configure: error: libbar is required";
                 eol "> see config.log for details";
                 eol "> exiting" ] |}.

Definition foo_args : Args :=
  {| attr := str "foo"; cc := []; nixpkgs := str "." |}.

(** The hash secret of an interpreter started with [PYTHONHASHSEED=0]. *)
Definition seed0 : HashSecret := {| k0 := 0; k1 := 0 |}.

(** A world in which no issue exists yet and every tool succeeds. *)
Definition quiet_world : World :=
  {| hash_secret := seed0;
     jitter := 417;
     search_issues := fun _ _ => Some 0%Z;
     git_log := Ok (eol "3f2a9c0d1b4e5f60718293a4b5c6d7e8f9012345");
     nix_eval_maintainers := fun _ => LookupGives [HStr (str "alice")];
     config_nix := Some (eol "{ allowUnfree = true; }");
     nix_info_out := Ok (eol " - system: x86_64-linux");
     GITHUB_REPOSITORY := None;
     GITHUB_RUN_ID := None;
     gh := fun _ => Ok 0%Z |}.

(** The same world, except that the search already knows the build tag. *)
Definition known_world : World :=
  {| hash_secret := seed0;
     jitter := 417;
     search_issues := fun n _ => match n with O => Some 0%Z | _ => Some 1%Z end;
     git_log := git_log quiet_world;
     nix_eval_maintainers := nix_eval_maintainers quiet_world;
     config_nix := config_nix quiet_world;
     nix_info_out := nix_info_out quiet_world;
     GITHUB_REPOSITORY := None;
     GITHUB_RUN_ID := None;
     gh := gh quiet_world |}.

(** The first world again, with a second run of the same build in which
    the search answers differently and a maintainer entry lacks its
    handle. *)
Definition other_world : World :=
  {| hash_secret := seed0;
     jitter := 12;
     search_issues := fun _ _ => Some 0%Z;
     git_log := Ok (eol "aaaaaaaabbbbbbbbccccccccddddddddeeeeeeee");
     nix_eval_maintainers := fun _ => LookupRaises KeyError;
     config_nix := None;
     nix_info_out := Raises OSError;
     GITHUB_REPOSITORY := Some (str "samuela/nixpkgs-upkeep");
     GITHUB_RUN_ID := Some (str "5581874789");
     gh := fun _ => Raises OSError |}.


(** The build of [foo] with a compiler that the kernel killed: the marker
    line, the header and ten lines of log. *)
Definition foo_killed : ProcessResult :=
  {| returncode := 1;
     stdout := [];
     stderr := (foo_marker ++ [newline]) :: eol "       last 10 log lines:"
               :: [ eol "> checking for gcc... gcc";
                    eol "> checking whether the C compiler works... yes";
                    eol "> compiling main.c";
                    eol "> compiling util.c";
                    eol "> compiling parse.c";
                    eol "> compiling big.c";
                    eol "> gcc: fatal error: Killed signal terminated program cc1";
                    eol "> compilation terminated.";
                    eol "> make: *** [Makefile:12: big.o] Error 1";
                    eol "> exiting" ] |}.

(** A build that was ended by SIGTERM: [poll()] gives -15. *)
Definition terminated_failed : ProcessResult :=
  {| returncode := -15;
     stdout := [];
     stderr := [ eol "building '/nix/store/abcdefghijklmnopqrstuvwxyz123456-foo-1.2.3.drv'..." ] |}.

(** A failure that is not a failed builder. *)
Definition unsupported_failed : ProcessResult :=
  {| returncode := 1;
     stdout := [];
     stderr := [ eol "error: tensorflow-gpu-2.13.0 not supported for interpreter python3.12" ] |}.

(** A build that ran out of disk space. *)
Definition disk_full_failed : ProcessResult :=
  {| returncode := 1;
     stdout := [];
     stderr := [ eol "error: writing to file: No space left on device" ] |}.

(** Two excerpts that differ in nothing but the hash of one store path. *)
Definition excerpt_with (store_hash : string) : list text :=
  [ str "/nix/store/" ++ str store_hash
    ++ eol "-stdenv-linux/setup: line 1639: cmake: command not found" ].

Definition store_hash_a : string := "0a1sbcdfghijklmnpqrsvwxyz0123456".
Definition store_hash_b : string := "zzzzbcdfghijklmnpqrsvwxyz0123456".


End Samples.

(* ================================================================== *)
(** ** The capture loop of [run] (lines 45-75) *)
(* ================================================================== *)

Module Multiplexer.
Import Py.

(** A [bytes] object. *)
Definition bytes := list ascii.

(** The two pipes of the child, [p.stdout.fileno()] and
    [p.stderr.fileno()]. *)
Inductive Fd := FdStdout | FdStderr.

Definition fd_eqb (a b : Fd) : bool :=
  match a, b with
  | FdStdout, FdStdout | FdStderr, FdStderr => true
  | _, _ => false
  end.

(** One turn of the [while True] loop as the system answers it: the
    descriptors [select] returned, each with what [readline] then gives on
    it, and what [p.poll()] says at the end of the turn. *)
Record Wakeup := {
  ready : list (Fd * bytes);
  poll : option Z
}.

(** The [ProcessResult] that [run] builds; its lines are still bytes. *)
Record Captured := {
  cap_returncode : Z;
  cap_stdout : list bytes;
  cap_stderr : list bytes
}.

(** The local variables of [run] and what it wrote.  [console] holds the
    calls of [sys.stdout.buffer.write] and [sys.stderr.buffer.write] in
    the order the script issues them; each is followed by a flush of its
    stream.  [text_out] holds what [print] handed to the text layer of
    [sys.stdout]: that layer keeps a line until it is flushed unless the
    stream is a terminal, so where the line lands among the writes of
    [console] is not decided by the script, and the two are kept apart. *)
Record LoopState := {
  stdout_buf : list bytes;
  stderr_buf : list bytes;
  text_out : list bytes;
  console : list (Fd * bytes);
  no_read : bool
}.

Definition is_empty (b : bytes) : bool :=
  match b with [] => true | _ :: _ => false end.

(** The body of [for fd in r]. *)
Definition on_ready (st : LoopState) (x : Fd * bytes) : LoopState :=
  let '(fd, read) := x in
  match fd with
  | FdStdout =>
      if negb (is_empty read) then
        {| stdout_buf := stdout_buf st ++ [read];
           stderr_buf := stderr_buf st;
           text_out := text_out st;
           console := console st ++ [(FdStdout, str "stdout: " ++ read)];
           no_read := false |}
      else st
  | FdStderr =>
      if negb (is_empty read) then
        {| stdout_buf := stdout_buf st;
           stderr_buf := stderr_buf st ++ [read];
           text_out := text_out st;
           console := console st ++ [(FdStderr, str "stderr: " ++ read)];
           no_read := false |}
      else st
  end.

Definition begin_turn (st : LoopState) : LoopState :=
  {| stdout_buf := stdout_buf st;
     stderr_buf := stderr_buf st;
     text_out := text_out st;
     console := console st;
     no_read := true |}.

(** The loop over the turns the system offers.  [None]: the turns are used
    up and the loop is still waiting in [select]. *)
Fixpoint run_loop (turns : list Wakeup) (st : LoopState)
  : option (Captured * list (Fd * bytes)) :=
  match turns with
  | [] => None
  | wk :: turns' =>
      let st' := fold_left on_ready (ready wk) (begin_turn st) in
      if no_read st' then
        match poll wk with
        | Some code =>
            Some ({| cap_returncode := code;
                     cap_stdout := stdout_buf st';
                     cap_stderr := stderr_buf st' |},
                  console st')
        | None => run_loop turns' st'
        end
      else run_loop turns' st'
  end.

(** The line [print] hands to the text layer before the child is
    started. *)
Definition announce (cmd_args : list text) : bytes :=
  str ">>> " ++ join (str " ") cmd_args ++ [newline].

(** [run], from the two empty lists on.  It gives the [ProcessResult] and
    the writes of the loop to the two byte streams of the console. *)
Definition run (cmd_args : list text) (turns : list Wakeup)
  : option (Captured * list (Fd * bytes)) :=
  run_loop turns
    {| stdout_buf := []; stderr_buf := []; text_out := [announce cmd_args];
       console := []; no_read := true |}.

(** *** Notions for the statements *)

(** The lines with content that [readline] gave on one pipe, in order. *)
Definition lines_read (fd : Fd) (wk : Wakeup) : list bytes :=
  map snd (filter (fun x => (fd_eqb (fst x) fd && negb (is_empty (snd x)))%bool)
                  (ready wk)).

Definition all_read (fd : Fd) (turns : list Wakeup) : list bytes :=
  flat_map (lines_read fd) turns.

(** What the turns make the loop write to the console. *)
Definition echo (x : Fd * bytes) : Fd * bytes :=
  match fst x with
  | FdStdout => (FdStdout, str "stdout: " ++ snd x)
  | FdStderr => (FdStderr, str "stderr: " ++ snd x)
  end.

Definition echoed (turns : list Wakeup) : list (Fd * bytes) :=
  flat_map (fun wk => map echo (filter (fun x => negb (is_empty (snd x)))
                                       (ready wk))) turns.

(** A turn in which no pipe gave content. *)
Definition quiet (wk : Wakeup) : bool :=
  forallb (fun x => is_empty (snd x)) (ready wk).

(** A turn on which the loop returns. *)
Definition final (wk : Wakeup) : bool :=
  (quiet wk && match poll wk with Some _ => true | None => false end)%bool.

(** The state the loop has reached after turns none of which is final. *)
Definition after (pre : list Wakeup) (st : LoopState) (q : bool) : LoopState :=
  {| stdout_buf := stdout_buf st ++ all_read FdStdout pre;
     stderr_buf := stderr_buf st ++ all_read FdStderr pre;
     text_out := text_out st;
     console := console st ++ echoed pre;
     no_read := q |}.

(** What was written to one console stream. *)
Definition console_of (fd : Fd) (con : list (Fd * bytes)) : list bytes :=
  map snd (filter (fun x => fd_eqb (fst x) fd) con).

Definition prefix_of (fd : Fd) : bytes :=
  match fd with FdStdout => str "stdout: " | FdStderr => str "stderr: " end.

(** A child that writes to both pipes, is seen exited while a line is
    still unread, and causes two wakeups without content. *)
Definition sample_turns : list Wakeup :=
  [ {| ready := [(FdStdout, str "building" ++ [newline])]; poll := None |};
    {| ready := [(FdStdout, []); (FdStderr, [])]; poll := None |};
    {| ready := [(FdStdout, str "done" ++ [newline]);
                 (FdStderr, str "warning: x" ++ [newline])];
       poll := None |};
    {| ready := [(FdStderr, str "error: y" ++ [newline])]; poll := Some 1%Z |};
    {| ready := [(FdStdout, []); (FdStderr, [])]; poll := Some 1%Z |} ].

Definition sample_captured : Captured :=
  {| cap_returncode := 1;
     cap_stdout := [str "building" ++ [newline]; str "done" ++ [newline]];
     cap_stderr := [str "warning: x" ++ [newline];
                    str "error: y" ++ [newline]] |}.

Definition sample_cmd : list text :=
  [str "nix-build"; str "--fallback"; str "-A"; str "foo"].

Definition sample_console : list (Fd * bytes) :=
  [ (FdStdout, str "stdout: building" ++ [newline]);
    (FdStdout, str "stdout: done" ++ [newline]);
    (FdStderr, str "stderr: warning: x" ++ [newline]);
    (FdStderr, str "stderr: error: y" ++ [newline]) ].

End Multiplexer.

(* ================================================================== *)
(** ** Notions for further statements about the script *)
(* ================================================================== *)

Module Notions.
Import Py Re Canary.

(** [a] is [b] with some characters deleted. *)
Inductive Subseq : text -> text -> Prop :=
| subseq_nil : Subseq [] []
| subseq_keep c a b : Subseq a b -> Subseq (c :: a) (c :: b)
| subseq_drop c a b : Subseq a b -> Subseq a (c :: b).

Definition line_breaks (s : text) : nat :=
  List.length (filter (Ascii.eqb newline) s).

(** The class a match of [r] must find at its first character, when the
    pattern starts with a single character or a repetition of at least
    one. *)
Definition first_class (r : regex) : option (ascii -> bool) :=
  match r with
  | It _ (Chr cls) :: _ => Some cls
  | It _ (Rep cls (S _) _) :: _ => Some cls
  | _ => None
  end.

(** The pieces of a match that are single literal characters. *)
Definition singles (cs : text) : list text := map (fun c => [c]) cs.

(** The line has the shape the failure-marker pattern describes, with the
    given build identifier and package name and version. *)
Definition marker_shape (line hash_part name_part : text) : Prop :=
  exists c code rest,
    line = str "error: builder for '/nix/store/" ++ hash_part ++ str "-"
           ++ name_part ++ [c] ++ str "drv' failed with exit code "
           ++ code ++ str ";" ++ rest
    /\ List.length hash_part = 32 /\ forallb word hash_part = true
    /\ ~ In newline name_part /\ c <> newline
    /\ code <> [] /\ forallb digit code = true.

(** The query of the first and of the second search of a classified run. *)
Definition logs_query (w : World) (rec : FailureRecord) : text :=
  search_query (logs_tag (hash_secret w) (failing_pname_version rec)
                         (last_10_log_lines_pure (excerpt rec))).

Definition drv_query (w : World) (rec : FailureRecord) : text :=
  search_query (drv_tag (hash_secret w) (failing_drv_hash rec)).

(** The attribute the issue is filed for. *)
Definition failing_attr_of (rec : FailureRecord) : text :=
  pname_to_attr (fst (split_pname_version (failing_pname_version rec))).

(** The line of the two tags of a failure. *)
Definition tags_line (w : World) (rec : FailureRecord) : text :=
  str "- Internal tags: "
  ++ repr (logs_tag (hash_secret w) (failing_pname_version rec)
                    (last_10_log_lines_pure (excerpt rec)))
  ++ str " " ++ repr (drv_tag (hash_secret w) (failing_drv_hash rec))
  ++ [newline].

(** The arguments of a call of [gh]: the assignees at their place, and a
    body, the last argument, that ends with the line of the two tags. *)
Definition issue_args (w : World) (rec : FailureRecord) (assignees : text)
    (argv : list text) : Prop :=
  nth 8 argv [] = assignees
  /\ exists pre, last argv [] = pre ++ tags_line w rec.

(** Both searches answered, with counts that are not above zero. *)
Definition both_clear (w : World) (rec : FailureRecord) (n1 n2 : Z) : Prop :=
  search_issues w 0 (logs_query w rec) = Some n1 /\ (n1 <= 0)%Z
  /\ search_issues w 1 (drv_query w rec) = Some n2 /\ (n2 <= 0)%Z.

Definition searched (w : World) (rec : FailureRecord) (n1 n2 : Z)
  : list Event :=
  [Sleep (jitter w); SearchIssues (logs_query w rec) (Some n1);
   SearchIssues (drv_query w rec) (Some n2)].

(** The ways the run of a classified failure can go, by what the world
    answers: its trace and its end. *)
Inductive classified_run (a : Args) (w : World) (rc : Z) (rec : FailureRecord)
  : list Event -> Outcome -> Prop :=
| cr_logs_search_raises :
    search_issues w 0 (logs_query w rec) = None ->
    classified_run a w rc rec
      [Sleep (jitter w); SearchIssues (logs_query w rec) None]
      (Uncaught RequestError)
| cr_logs_tag_known n1 :
    search_issues w 0 (logs_query w rec) = Some n1 -> (n1 > 0)%Z ->
    classified_run a w rc rec
      [Sleep (jitter w); SearchIssues (logs_query w rec) (Some n1)]
      (Exit 0)
| cr_drv_search_raises n1 :
    search_issues w 0 (logs_query w rec) = Some n1 -> (n1 <= 0)%Z ->
    search_issues w 1 (drv_query w rec) = None ->
    classified_run a w rc rec
      [Sleep (jitter w); SearchIssues (logs_query w rec) (Some n1);
       SearchIssues (drv_query w rec) None]
      (Uncaught RequestError)
| cr_drv_tag_known n1 n2 :
    search_issues w 0 (logs_query w rec) = Some n1 -> (n1 <= 0)%Z ->
    search_issues w 1 (drv_query w rec) = Some n2 -> (n2 > 0)%Z ->
    classified_run a w rc rec
      [Sleep (jitter w); SearchIssues (logs_query w rec) (Some n1);
       SearchIssues (drv_query w rec) (Some n2)]
      (Exit 0)
| cr_git_raises n1 n2 e :
    both_clear w rec n1 n2 ->
    git_log w = Raises e ->
    classified_run a w rc rec
      (searched w rec n1 n2 ++ [GitLog])
      (Uncaught e)
| cr_attr_lookup_raises n1 n2 git_stdout e :
    both_clear w rec n1 n2 ->
    git_log w = Ok git_stdout ->
    nix_eval w (attr a) = Raises e ->
    classified_run a w rc rec
      (searched w rec n1 n2 ++ [GitLog; NixEval (attr a)])
      (Uncaught e)
| cr_failing_lookup_raises n1 n2 git_stdout attr_maintainers e :
    both_clear w rec n1 n2 ->
    git_log w = Ok git_stdout ->
    nix_eval w (attr a) = Ok attr_maintainers ->
    nix_eval w (failing_attr_of rec) = Raises e ->
    classified_run a w rc rec
      (searched w rec n1 n2
       ++ [GitLog; NixEval (attr a); NixEval (failing_attr_of rec)])
      (Uncaught e)
| cr_no_config n1 n2 git_stdout attr_maintainers failing_maintainers :
    both_clear w rec n1 n2 ->
    git_log w = Ok git_stdout ->
    nix_eval w (attr a) = Ok attr_maintainers ->
    nix_eval w (failing_attr_of rec) = Ok failing_maintainers ->
    config_nix w = None ->
    classified_run a w rc rec
      (searched w rec n1 n2
       ++ [GitLog; NixEval (attr a); NixEval (failing_attr_of rec);
           OpenConfig])
      (Uncaught OSError)
| cr_nix_info_raises n1 n2 git_stdout attr_maintainers failing_maintainers
    config e :
    both_clear w rec n1 n2 ->
    git_log w = Ok git_stdout ->
    nix_eval w (attr a) = Ok attr_maintainers ->
    nix_eval w (failing_attr_of rec) = Ok failing_maintainers ->
    config_nix w = Some config ->
    nix_info_out w = Raises e ->
    classified_run a w rc rec
      (searched w rec n1 n2
       ++ [GitLog; NixEval (attr a); NixEval (failing_attr_of rec);
           OpenConfig; NixInfo])
      (Uncaught e)
| cr_assignee_no_string n1 n2 git_stdout attr_maintainers failing_maintainers
    config nix_info_stdout :
    both_clear w rec n1 n2 ->
    git_log w = Ok git_stdout ->
    nix_eval w (attr a) = Ok attr_maintainers ->
    nix_eval w (failing_attr_of rec) = Ok failing_maintainers ->
    config_nix w = Some config ->
    nix_info_out w = Ok nix_info_stdout ->
    assignee failing_maintainers = None ->
    classified_run a w rc rec
      (searched w rec n1 n2
       ++ [GitLog; NixEval (attr a); NixEval (failing_attr_of rec);
           OpenConfig; NixInfo])
      (Uncaught TypeError)
| cr_gh_not_started n1 n2 git_stdout attr_maintainers failing_maintainers
    config nix_info_stdout assignees argv e :
    both_clear w rec n1 n2 ->
    git_log w = Ok git_stdout ->
    nix_eval w (attr a) = Ok attr_maintainers ->
    nix_eval w (failing_attr_of rec) = Ok failing_maintainers ->
    config_nix w = Some config ->
    nix_info_out w = Ok nix_info_stdout ->
    assignee failing_maintainers = Some assignees ->
    issue_args w rec assignees argv ->
    gh_run w argv = Raises e ->
    classified_run a w rc rec
      (searched w rec n1 n2
       ++ [GitLog; NixEval (attr a); NixEval (failing_attr_of rec);
           OpenConfig; NixInfo; GhNotStarted argv])
      (Uncaught e)
| cr_gh_fails n1 n2 git_stdout attr_maintainers failing_maintainers
    config nix_info_stdout assignees argv gh_rc :
    both_clear w rec n1 n2 ->
    git_log w = Ok git_stdout ->
    nix_eval w (attr a) = Ok attr_maintainers ->
    nix_eval w (failing_attr_of rec) = Ok failing_maintainers ->
    config_nix w = Some config ->
    nix_info_out w = Ok nix_info_stdout ->
    assignee failing_maintainers = Some assignees ->
    issue_args w rec assignees argv ->
    gh_run w argv = Ok gh_rc -> gh_rc <> 0%Z ->
    classified_run a w rc rec
      (searched w rec n1 n2
       ++ [GitLog; NixEval (attr a); NixEval (failing_attr_of rec);
           OpenConfig; NixInfo; GhIssueCreate argv gh_rc])
      (Uncaught CalledProcessError)
| cr_filed n1 n2 git_stdout attr_maintainers failing_maintainers
    config nix_info_stdout assignees argv :
    both_clear w rec n1 n2 ->
    git_log w = Ok git_stdout ->
    nix_eval w (attr a) = Ok attr_maintainers ->
    nix_eval w (failing_attr_of rec) = Ok failing_maintainers ->
    config_nix w = Some config ->
    nix_info_out w = Ok nix_info_stdout ->
    assignee failing_maintainers = Some assignees ->
    issue_args w rec assignees argv ->
    gh_run w argv = Ok 0%Z ->
    classified_run a w rc rec
      (searched w rec n1 n2
       ++ [GitLog; NixEval (attr a); NixEval (failing_attr_of rec);
           OpenConfig; NixInfo; GhIssueCreate argv 0])
      (Exit rc).

(** The four words of a SipHash state are 64-bit words. *)
Definition in64 (v : sipstate) : Prop :=
  let '(v0, v1, v2, v3) := v in
  (0 <= v0 < 2 ^ 64 /\ 0 <= v1 < 2 ^ 64
   /\ 0 <= v2 < 2 ^ 64 /\ 0 <= v3 < 2 ^ 64)%Z.

(** The characters no substitution pass can start a match on are all the
    characters of the text. *)
Definition plain (s : text) : bool :=
  forallb (fun c => negb (digit c || exactly ">" c || exactly "/" c)) s.

End Notions.

(* ================================================================== *)
(** ** Facts about the runtime primitives *)
(* ================================================================== *)

Module PyFacts.
Import Py.

Lemma startswith_app (p t : text) : startswith p (p ++ t) = true.
Proof.
  induction p as [|c p IH]; simpl; [reflexivity|].
  now rewrite Ascii.eqb_refl, IH.
Qed.

Lemma startswith_inv (p s : text) :
  startswith p s = true -> exists t, s = p ++ t.
Proof.
  revert s; induction p as [|c p IH]; intros [|d s] H; simpl in *;
    try discriminate; try (eexists; reflexivity).
  apply andb_prop in H as [Hc Hs].
  apply Ascii.eqb_eq in Hc; subst d.
  destruct (IH _ Hs) as [t ->]. now exists t.
Qed.

Lemma contains_infix (p a b : text) : contains p (a ++ p ++ b) = true.
Proof.
  induction a as [|c a IH].
  - simpl app. destruct (p ++ b) eqn:E; simpl; rewrite <- E;
      now rewrite startswith_app.
  - simpl app. simpl. rewrite IH. apply orb_true_r.
Qed.

Lemma contains_inv (p s : text) :
  contains p s = true -> exists a b, s = a ++ p ++ b.
Proof.
  induction s as [|c s IH]; simpl; intros H.
  - rewrite orb_false_r in H. apply startswith_inv in H as [t Ht].
    now exists [], t.
  - apply orb_prop in H as [H|H].
    + apply startswith_inv in H as [t Ht]. now exists [], t.
    + destruct (IH H) as (a & b & ->). now exists (c :: a), b.
Qed.

Lemma lower_app (a b : text) : lower (a ++ b) = lower a ++ lower b.
Proof. apply map_app. Qed.

Lemma split_nonempty (sep : ascii) (s : text) : split sep s <> [].
Proof.
  destruct s as [|c s]; simpl; [discriminate|].
  destruct (Ascii.eqb c sep); [discriminate|].
  destruct (split sep s); discriminate.
Qed.

(** Joining what [split] produced gives the string back. *)
Lemma join_split (sep : ascii) (s : text) : join [sep] (split sep s) = s.
Proof.
  induction s as [|c s IH]; [reflexivity|].
  simpl. destruct (Ascii.eqb c sep) eqn:E.
  - apply Ascii.eqb_eq in E; subst c.
    pose proof (split_nonempty sep s) as Hne.
    destruct (split sep s) as [|p ps]; [contradiction|].
    simpl in *. now rewrite IH.
  - pose proof (split_nonempty sep s) as Hne.
    destruct (split sep s) as [|p ps]; [contradiction|].
    destruct ps; simpl in *; now rewrite <- IH.
Qed.

Lemma split_pieces_free (sep : ascii) (s : text) :
  Forall (fun p => ~ In sep p) (split sep s).
Proof.
  induction s as [|c s IH]; simpl.
  - constructor; [intros []|constructor].
  - destruct (Ascii.eqb c sep) eqn:E.
    + constructor; [intros []|exact IH].
    + destruct (split sep s) as [|p ps]; [repeat constructor; intros [->|[]];
        now rewrite Ascii.eqb_refl in E|].
      inversion IH; subst. constructor; [|assumption].
      intros [->|Hin]; [now rewrite Ascii.eqb_refl in E|contradiction].
Qed.

Lemma split_free (sep : ascii) (s : text) :
  ~ In sep s -> split sep s = [s].
Proof.
  induction s as [|c s IH]; intros Hn; [reflexivity|].
  simpl. destruct (Ascii.eqb c sep) eqn:E.
  - apply Ascii.eqb_eq in E; subst. exfalso; apply Hn; now left.
  - rewrite IH; [reflexivity|]. intros Hin; apply Hn; now right.
Qed.

Lemma split_two (sep : ascii) (s : text) :
  In sep s -> exists p q ps, split sep s = p :: q :: ps.
Proof.
  induction s as [|c s IH]; intros Hin; [destruct Hin|].
  simpl. destruct (Ascii.eqb c sep) eqn:E.
  - pose proof (split_nonempty sep s).
    destruct (split sep s) as [|q ps]; [contradiction|]. now exists [], q, ps.
  - destruct Hin as [->|Hin]; [now rewrite Ascii.eqb_refl in E|].
    destruct (IH Hin) as (p & q & ps & ->). now exists (c :: p), q, ps.
Qed.

Lemma join_snoc (sep : text) (l : list text) (p q : text) :
  join sep (p :: q :: l) =
  join sep (removelast (p :: q :: l)) ++ sep ++ last (p :: q :: l) [].
Proof.
  revert p q; induction l as [|r l IH]; intros p q.
  - reflexivity.
  - change (join sep (p :: q :: r :: l)) with (p ++ sep ++ join sep (q :: r :: l)).
    rewrite IH.
    change (removelast (p :: q :: r :: l)) with (p :: removelast (q :: r :: l)).
    change (last (p :: q :: r :: l) []) with (last (q :: r :: l) []).
    destruct (removelast (q :: r :: l)) eqn:E.
    + destruct l; discriminate.
    + change (join sep (p :: t :: l0)) with (p ++ sep ++ join sep (t :: l0)).
      now rewrite <- !app_assoc.
Qed.

Lemma in_existsb_eqb (c : ascii) (s : text) :
  existsb (Ascii.eqb c) s = true <-> In c s.
Proof.
  rewrite existsb_exists. split.
  - intros (x & Hin & E). apply Ascii.eqb_eq in E. now subst.
  - intros Hin. exists c. split; [assumption|apply Ascii.eqb_refl].
Qed.

End PyFacts.

(* ================================================================== *)
(** ** Facts about matching and substitution *)
(* ================================================================== *)

Module ReFacts.
Import Py Re.

Lemma within_zero_nil (hi : option nat) : within 0 hi 0.
Proof. split; [lia|destruct hi; [lia|exact I]]. Qed.

Lemma within_step (lo : nat) (hi : option nat) (n : nat) :
  within (pred lo) (less hi) n -> may_take hi = true -> within lo hi (S n).
Proof.
  intros [Hlo Hhi] Hm. split; [lia|].
  destruct hi as [[|h]|]; simpl in *; try discriminate; try lia; exact I.
Qed.

Lemma within_pred (lo : nat) (hi : option nat) (n : nat) :
  within lo hi (S n) -> within (pred lo) (less hi) n /\ may_take hi = true.
Proof.
  intros [Hlo Hhi]. destruct hi as [[|h]|]; simpl in *; try lia;
    repeat split; try lia; exact I.
Qed.

Section RepeatFacts.
Variable cls : ascii -> bool.
Variable k : text -> option (list text).

(** What a successful repetition returns. *)
Lemma rep_match_sound (Q : list text -> text -> Prop) :
  (forall s ps, k s = Some ps -> Q ps s) ->
  forall s lo hi p ps,
    rep_match cls k lo hi s = Some (p, ps) ->
    forallb cls p = true /\ within lo hi (List.length p)
    /\ exists s', s = p ++ s' /\ Q ps s'.
Proof.
  intros Hk. induction s as [|c s IH]; intros lo hi p ps H; simpl in H.
  - destruct lo; [|discriminate].
    destruct (k []) eqn:E; [|discriminate]. injection H as <- <-.
    split; [reflexivity|]. split; [apply within_zero_nil|].
    exists []. split; [reflexivity|now apply Hk].
  - assert (Hstop :
      match lo with
      | O => option_map (pair []) (k (c :: s))
      | S _ => None
      end = Some (p, ps) ->
      forallb cls p = true /\ within lo hi (List.length p)
      /\ exists s', c :: s = p ++ s' /\ Q ps s').
    { intros H'. destruct lo; [|discriminate].
      destruct (k (c :: s)) eqn:E; [|discriminate]. injection H' as <- <-.
      split; [reflexivity|]. split; [apply within_zero_nil|].
      exists (c :: s). split; [reflexivity|now apply Hk]. }
    destruct (cls c && may_take hi)%bool eqn:Ec; [|now apply Hstop].
    destruct (rep_match cls k (pred lo) (less hi) s) as [[p' ps']|] eqn:Er;
      [|now apply Hstop].
    injection H as <- <-. apply andb_prop in Ec as [Hc Hm].
    destruct (IH _ _ _ _ Er) as (Hall & Hw & s' & -> & HQ).
    simpl. rewrite Hc, Hall. split; [reflexivity|].
    split; [now apply within_step|]. now exists s'.
Qed.

(** A repetition succeeds whenever some admissible number of characters
    leaves a text on which the rest of the pattern succeeds. *)
Lemma rep_match_complete (p s' : text) :
  forallb cls p = true -> k s' <> None ->
  forall lo hi, within lo hi (List.length p) ->
  rep_match cls k lo hi (p ++ s') <> None.
Proof.
  intros Hall Hk. induction p as [|c p IH]; intros lo hi Hw.
  - destruct Hw as [Hlo _]. assert (lo = 0) by (simpl in Hlo; lia). subst lo.
    destruct (k s') as [r|] eqn:E; [|contradiction].
    destruct s' as [|c s]; simpl; rewrite E; [discriminate|].
    destruct (cls c && may_take hi)%bool; [|discriminate].
    destruct (rep_match cls k 0 (less hi) s) as [[? ?]|]; discriminate.
  - simpl in Hall. apply andb_prop in Hall as [Hc Hall].
    apply within_pred in Hw as [Hw Hm].
    simpl. rewrite Hc, Hm. simpl.
    specialize (IH Hall _ _ Hw).
    destruct (rep_match cls k (pred lo) (less hi) (p ++ s')) as [[? ?]|];
      [discriminate|contradiction].
Qed.

End RepeatFacts.

(** Soundness of the matcher: the pieces are accepted by the pattern and
    are a prefix of the text. *)
Lemma match_items_sound (r : regex) :
  forall s ps, match_items r s = Some ps ->
  accepts r ps /\ exists rest, s = List.concat ps ++ rest.
Proof.
  induction r as [|[cap [cls|cls lo hi]] r IH]; intros s ps H; simpl in H.
  - injection H as <-. split; [exact I|now exists s].
  - destruct s as [|c s]; [discriminate|].
    destruct (cls c) eqn:Ec; [|discriminate].
    destruct (match_items r s) as [ps'|] eqn:E; [|discriminate].
    injection H as <-. destruct (IH _ _ E) as [Ha [rest ->]].
    split; [simpl; split; [now exists c|assumption]|now exists rest].
  - destruct (rep_match cls (match_items r) lo hi s) as [[p ps']|] eqn:E;
      [|discriminate].
    injection H as <-.
    destruct (rep_match_sound cls (match_items r)
                (fun ps s => accepts r ps /\ exists rest, s = List.concat ps ++ rest)
                IH _ _ _ _ _ E) as (Hall & Hw & s' & -> & Ha & rest & ->).
    split; [simpl; auto|]. exists rest. simpl. now rewrite app_assoc.
Qed.

(** Completeness: whenever accepted pieces are a prefix of the text, the
    matcher finds some match. *)
Lemma match_items_complete (r : regex) :
  forall ps rest, accepts r ps -> match_items r (List.concat ps ++ rest) <> None.
Proof.
  induction r as [|[cap [cls|cls lo hi]] r IH]; intros ps rest Ha.
  - simpl. discriminate.
  - destruct ps as [|p ps]; [destruct Ha|].
    destruct Ha as [(c & -> & Hc) Ha]. simpl. rewrite Hc.
    specialize (IH _ rest Ha).
    destruct (match_items r (List.concat ps ++ rest)); [discriminate|contradiction].
  - destruct ps as [|p ps]; [destruct Ha|].
    destruct Ha as (Hall & Hw & Ha). simpl. rewrite <- app_assoc.
    pose proof (@rep_match_complete cls (match_items r) p _ Hall (IH _ rest Ha) _ _ Hw) as Hr.
    destruct (rep_match cls (match_items r) lo hi (p ++ List.concat ps ++ rest))
      as [[? ?]|]; [discriminate|contradiction].
Qed.

(** *** Lines *)

Lemma first_line_app (w s : text) :
  ~ In newline w -> first_line (w ++ s) = w ++ first_line s.
Proof.
  induction w as [|c w IH]; intros Hn; [reflexivity|].
  simpl. destruct (Ascii.eqb c newline) eqn:E.
  - apply Ascii.eqb_eq in E. exfalso; apply Hn; now left.
  - rewrite IH; [reflexivity|]. intros Hin; apply Hn; now right.
Qed.



Lemma class_not_newline (cls : ascii -> bool) (c : ascii) :
  cls newline = false -> cls c = true -> c <> newline.
Proof. intros Hn Hc ->. congruence. Qed.

Lemma forallb_not_newline (cls : ascii -> bool) (p : text) :
  cls newline = false -> forallb cls p = true -> ~ In newline p.
Proof.
  intros Hn Hall Hin. rewrite forallb_forall in Hall.
  specialize (Hall _ Hin). congruence.
Qed.

(** A match of a pattern without line breaks stays on the first line. *)
Lemma accepts_nl_free (r : regex) :
  nl_free r = true -> forall ps, accepts r ps -> ~ In newline (List.concat ps).
Proof.
  induction r as [|[cap [cls|cls lo hi]] r IH]; intros Hf [|p ps] Ha;
    simpl in Ha; try contradiction; try (intros []).
  - simpl in Hf. apply andb_prop in Hf as [Hc Hf].
    apply negb_true_iff in Hc. destruct Ha as [(c & -> & Hcc) Ha].
    simpl. intros [E|Hin]; [|now apply (IH Hf ps Ha)].
    now apply (class_not_newline cls _ Hc Hcc).
  - simpl in Hf. apply andb_prop in Hf as [Hc Hf].
    apply negb_true_iff in Hc. destruct Ha as (Hall & _ & Ha).
    simpl. rewrite in_app_iff. intros [Hin|Hin]; [|now apply (IH Hf ps Ha)].
    now apply (forallb_not_newline cls p Hc Hall).
Qed.


(** *** Patterns that end in [.*] *)






(** *** [search] and [sub] *)

Lemma re_match_none (r : regex) (s : text) :
  re_match r s = None <-> match_items r s = None.
Proof.
  unfold re_match. destruct (match_items r s); simpl; split; congruence.
Qed.

Lemma search_false (r : regex) (s : text) :
  search r s = false <-> forall i, match_items r (skipn i s) = None.
Proof.
  induction s as [|c s IH]; simpl.
  - destruct (re_match r []) eqn:E.
    + split; [discriminate|]. intros H. specialize (H 0). simpl in H.
      apply re_match_none in H. congruence.
    + apply re_match_none in E. split; [|reflexivity].
      intros _ i. now rewrite skipn_nil.
  - destruct (re_match r (c :: s)) eqn:E.
    + split; [discriminate|]. intros H. specialize (H 0). simpl in H.
      apply re_match_none in H. congruence.
    + apply re_match_none in E. rewrite IH. split.
      * intros H [|i]; [exact E|apply H].
      * intros H i. apply (H (S i)).
Qed.

(** A substitution leaves a text without matches as it is. *)
Lemma sub_id (r : regex) (s : text) : search r s = false -> sub r s = s.
Proof.
  unfold sub. induction s as [|c s IH]; [reflexivity|].
  simpl. destruct (re_match r (c :: s)); [discriminate|].
  intros H. now rewrite IH.
Qed.




End ReFacts.

(* ================================================================== *)
(** ** Properties of the script *)
(* ================================================================== *)

Module CanarySpec.
Import Py Re Canary PyFacts ReFacts.

(** *** Package identity *)

(** C10: [split_pname_version] cuts at the last hyphen.  The version holds
    no hyphen; for an input with a hyphen the name, a hyphen and the version
    give the input back; for an input without one the name is empty and the
    version is the whole input. *)
Theorem split_pname_version_last_hyphen (pname_version : text) :
  let '(name, version) := split_pname_version pname_version in
  ~ In "-"%char version
  /\ if existsb (Ascii.eqb "-") pname_version
     then pname_version = name ++ str "-" ++ version
     else name = [] /\ version = pname_version.
Proof.
  unfold split_pname_version. split.
  - pose proof (split_pieces_free "-" pname_version) as Hfree.
    pose proof (split_nonempty "-" pname_version) as Hne.
    rewrite Forall_forall in Hfree. apply Hfree.
    destruct (exists_last Hne) as (l & x & ->).
    rewrite last_last. apply in_or_app. right. now left.
  - destruct (existsb (Ascii.eqb "-") pname_version) eqn:E.
    + apply in_existsb_eqb in E.
      destruct (split_two "-" pname_version E) as (p & q & ps & Hs).
      rewrite <- (join_split "-" pname_version) at 1.
      rewrite Hs. apply join_snoc.
    + assert (~ In "-"%char pname_version) as Hn.
      { intros Hin. apply in_existsb_eqb in Hin. congruence. }
      rewrite (split_free "-" pname_version Hn). split; reflexivity.
Qed.

(** *** Classification *)

Lemma matching_lines_count {n : nat} (l : list text) :
  List.length (matching_lines (enumerate_from n l)) = marker_count l.
Proof.
  unfold marker_count. revert n. induction l as [|x l IH]; intros n;
    [reflexivity|].
  simpl. unfold is_marker_line.
  destruct (re_match first_error_line_re x); simpl; now rewrite IH.
Qed.

Lemma first_error_line_count (stderr_utf8 : list text) :
  List.length (first_error_line_ stderr_utf8) = marker_count stderr_utf8.
Proof. apply matching_lines_count. Qed.

(** C4: when the joined error text holds "no space left on device" in any
    letter case, or holds "Killed", the script exits with 0 whatever the
    return code of the build was, and nothing is searched or reported: the
    trace is empty. *)
Theorem environmental_failure_exits_zero
    (a : Args) (w : World) (build_result : ProcessResult) :
  (exists pre mid post,
      join [] (stderr build_result) = pre ++ mid ++ post
      /\ lower mid = str "no space left on device")
  \/ (exists pre post,
      join [] (stderr build_result) = pre ++ str "Killed" ++ post) ->
  run_script (main a w build_result) = ([], Exit 0)
  /\ reported (trace a w build_result) = false.
Proof.
  intros H.
  assert (Hrun : run_script (main a w build_result) = ([], Exit 0)).
  { unfold main. destruct (returncode build_result =? 0)%Z; [reflexivity|].
    destruct H as [(pre & mid & post & Hj & Hl)|(pre & post & Hj)].
    - rewrite Hj, !lower_app, Hl, contains_infix. reflexivity.
    - destruct (contains (str "no space left on device")
                         (lower (join [] (stderr build_result))));
        [reflexivity|].
      rewrite Hj, contains_infix. reflexivity. }
  split; [exact Hrun|]. unfold trace. now rewrite Hrun.
Qed.

(** C3: a failed build without an environmental marker whose error lines
    hold no marker line, or two or more, is unclassifiable, and the script
    exits with the return code of the build, having searched and reported
    nothing. *)
Theorem unclassifiable_keeps_returncode
    (a : Args) (w : World) (build_result : ProcessResult) :
  returncode build_result <> 0%Z ->
  contains (str "no space left on device")
           (lower (join [] (stderr build_result))) = false ->
  contains (str "Killed") (join [] (stderr build_result)) = false ->
  marker_count (stderr build_result) = 0
  \/ 2 <= marker_count (stderr build_result) ->
  classify build_result = Unclassifiable
  /\ run_script (main a w build_result) = ([], Exit (returncode build_result))
  /\ exit_status (outcome a w build_result)
     = (returncode build_result mod 256)%Z
  /\ ((0 < returncode build_result < 256)%Z ->
      exit_status (outcome a w build_result) = returncode build_result)
  /\ ((-256 < returncode build_result < 0)%Z ->
      exit_status (outcome a w build_result)
      = (256 + returncode build_result)%Z).
Proof.
  intros Hrc Hspace Hkill Hcount.
  apply Z.eqb_neq in Hrc.
  rewrite <- first_error_line_count in Hcount.
  assert (Hrun : classify build_result = Unclassifiable
                 /\ run_script (main a w build_result)
                    = ([], Exit (returncode build_result))).
  { unfold classify, main. rewrite Hrc, Hspace, Hkill.
    destruct (first_error_line_ (stderr build_result)) as [|[ix m] [|x l]];
      simpl in Hcount |- *.
    - now split.
    - lia.
    - now split. }
  destruct Hrun as [Hcls Hrun]. unfold outcome. rewrite Hrun.
  cbn [snd exit_status]. repeat split; try assumption.
  - intros Hpos. apply Z.mod_small. lia.
  - intros Hneg.
    rewrite <- (Z.mod_add _ 1 256) by lia. rewrite Z.mod_small; lia.
Qed.

(** The excerpt of a classified failure, and where its marker line is. *)
Lemma classify_classified (build_result : ProcessResult) (ix : nat)
    (rec : FailureRecord) :
  classify build_result = Classified ix rec ->
  exists m,
    first_error_line_ (stderr build_result) = [(ix, m)]
    /\ rec = {| failing_drv_hash := group_of m 1;
                failing_pname_version := group_of m 2;
                excerpt := last_10_log_lines (stderr build_result) ix |}.
Proof.
  unfold classify.
  destruct (returncode build_result =? 0)%Z; [discriminate|].
  destruct (contains _ (lower _)); [discriminate|].
  destruct (contains _ _); [discriminate|].
  destruct (first_error_line_ (stderr build_result)) as [|[i m] [|x l]];
    try discriminate.
  intros H. injection H as <- <-. now exists m.
Qed.

(** C6, as the code has it: the excerpt is the slice from two lines after
    the marker line up to twelve lines after it, cut off where the buffer
    ends.  It holds ten lines when the buffer has twelve or more lines from
    the marker line on, and fewer otherwise. *)
Theorem excerpt_at_most_ten
    (build_result : ProcessResult) (ix : nat) (rec : FailureRecord) :
  classify build_result = Classified ix rec ->
  excerpt rec = firstn 10 (skipn (ix + 2) (stderr build_result))
  /\ List.length (excerpt rec)
     = Nat.min 10 (List.length (stderr build_result) - (ix + 2)).
Proof.
  intros H. destruct (classify_classified _ _ _ H) as (m & _ & ->).
  simpl. unfold last_10_log_lines, slice.
  replace (ix + 12 - (ix + 2)) with 10 by lia.
  split; [reflexivity|]. now rewrite length_firstn, length_skipn.
Qed.

(** *** The shape of a run *)

(** One step of the script: the monad's operations unfolded. *)
Ltac script_step :=
  cbv beta iota zeta delta
    [run_script bind emit sys_exit raise ret find_existing_issues
     get_maintainers fst snd negb];
  cbn [app].

Lemma main_run_shape (a : Args) (w : World) (build_result : ProcessResult) :
  run_shape (returncode build_result)
            (trace a w build_result) (outcome a w build_result).
Proof.
  unfold trace, outcome, main.
  destruct (returncode build_result =? 0)%Z eqn:Hrc; [constructor|].
  apply Z.eqb_neq in Hrc.
  destruct (contains _ (lower _)); [constructor|].
  destruct (contains _ _); [constructor|].
  destruct (negb _) eqn:Hlen; [now constructor|].
  destruct (first_error_line_ (stderr build_result)) as [|[ix m] l];
    [discriminate|].
  script_step.
  destruct (search_issues w 0 _) as [n1|]; [|constructor].
  destruct (n1 >? 0)%Z eqn:H1; [now constructor|].
  destruct (search_issues w 1 _) as [n2|]; [|now constructor].
  destruct (n2 >? 0)%Z eqn:H2; [now constructor|].
  destruct (split_pname_version (group_of m 2)) as [failing_pname failing_version].
  script_step.
  destruct (git_log w) as [git_stdout|e]; script_step;
    [|now apply (shape_raises _ _ _ _ _ _ [GitLog])].
  destruct (nix_eval w (attr a)) as [attr_maintainers|e]; script_step;
    [|now apply (shape_raises _ _ _ _ _ _ [GitLog; NixEval _])].
  destruct (nix_eval w (pname_to_attr failing_pname))
    as [failing_attr_maintainers|e]; script_step;
    [|now apply (shape_raises _ _ _ _ _ _ [GitLog; NixEval _; NixEval _])].
  destruct (config_nix w) as [config|]; script_step;
    [|now apply (shape_raises _ _ _ _ _ _
                   [GitLog; NixEval _; NixEval _; OpenConfig])].
  destruct (nix_info_out w) as [nix_info_stdout|e]; script_step;
    [|now apply (shape_raises _ _ _ _ _ _
                   [GitLog; NixEval _; NixEval _; OpenConfig; NixInfo])].
  destruct (assignee failing_attr_maintainers) as [assignees|]; script_step;
    [|now apply (shape_raises _ _ _ _ _ _
                   [GitLog; NixEval _; NixEval _; OpenConfig; NixInfo])].
  match goal with
  | |- context [gh_run w ?argv] =>
      destruct (gh_run w argv) as [gh_rc|e]; script_step;
      [|now apply (shape_raises _ _ _ _ _ _
                     [GitLog; NixEval _; NixEval _; OpenConfig; NixInfo;
                      GhNotStarted _])]
  end.
  destruct (gh_rc =? 0)%Z eqn:Hgh; script_step.
  - now apply (shape_filed _ _ _ _ _ _
                 [GitLog; NixEval _; NixEval _; OpenConfig; NixInfo]).
  - now apply (shape_gh_fails _ _ _ _ _ _
                 [GitLog; NixEval _; NixEval _; OpenConfig; NixInfo]).
Qed.

(** What a trace of calls alone does not hold. *)
Lemma calls_only_quiet (t : list Event) :
  calls_only t = true ->
  submitted t = false /\ reported t = false /\ found_existing t = false.
Proof.
  induction t as [|e t IH]; [now repeat split|].
  cbn [calls_only forallb]. intros H. apply andb_prop in H as [He Ht].
  destruct (IH Ht) as (I1 & I2 & I3).
  unfold submitted, reported, found_existing in *. cbn [existsb].
  rewrite I1, I2, I3. now destruct e.
Qed.

Lemma observed_app (f : Event -> bool) (t u : list Event) :
  existsb f (t ++ u) = existsb f t || existsb f u.
Proof. apply existsb_app. Qed.

(** Only a classified failure reaches the search. *)
Lemma searched_run_classified (a : Args) (w : World)
    (build_result : ProcessResult) :
  trace a w build_result <> [] ->
  exists ix rec, classify build_result = Classified ix rec.
Proof.
  unfold trace, classify, main.
  destruct (returncode build_result =? 0)%Z; [now intros []|].
  destruct (contains _ (lower _)); [now intros []|].
  destruct (contains _ _); [now intros []|].
  destruct (first_error_line_ (stderr build_result)) as [|[ix m] [|x l]];
    simpl; try (now intros []).
  intros _. now eexists _, _.
Qed.

(** The script follows the classification: nothing happens unless the
    failure is classified, and then the jitter sleep comes first. *)
Lemma main_by_classification (a : Args) (w : World)
    (build_result : ProcessResult) :
  match classify build_result with
  | Success | NotReportable _ =>
      run_script (main a w build_result) = ([], Exit 0)
  | Unclassifiable =>
      run_script (main a w build_result)
      = ([], Exit (returncode build_result))
  | Classified _ _ =>
      exists t, trace a w build_result = Sleep (jitter w) :: t
  end.
Proof.
  unfold trace, classify, main.
  destruct (returncode build_result =? 0)%Z; [reflexivity|].
  destruct (contains _ (lower _)); [reflexivity|].
  destruct (contains _ _); [reflexivity|].
  destruct (first_error_line_ (stderr build_result)) as [|[ix m] [|x l]];
    try reflexivity.
  cbv beta iota zeta delta [List.length Nat.eqb negb].
  script_step.
  destruct (search_issues w 0 _) as [n1|]; [|now eexists].
  destruct (n1 >? 0)%Z; [now eexists|].
  destruct (search_issues w 1 _) as [n2|]; [|now eexists].
  destruct (n2 >? 0)%Z; [now eexists|].
  destruct (split_pname_version (group_of m 2)) as [failing_pname failing_version].
  script_step.
  destruct (git_log w); script_step; [|now eexists].
  destruct (nix_eval w (attr a)); script_step; [|now eexists].
  destruct (nix_eval w (pname_to_attr failing_pname)) as [fm|]; script_step;
    [|now eexists].
  destruct (config_nix w); script_step; [|now eexists].
  destruct (nix_info_out w); script_step; [|now eexists].
  destruct (assignee fm); script_step; [|now eexists].
  match goal with
  | |- context [gh_run w ?argv] =>
      destruct (gh_run w argv) as [gh_rc|]; script_step; [|now eexists]
  end.
  destruct (gh_rc =? 0)%Z; now eexists.
Qed.

(** *** Exit codes *)

(** What the observations on a run of a given shape say. *)
Lemma shape_observations (rc : Z) (t : list Event) (o : Outcome) :
  run_shape rc t o ->
  (submitted t = true ->
   o = Exit rc /\ rc <> 0%Z /\ found_existing t = false)
  /\ (found_existing t = true -> o = Exit 0 /\ reported t = false).
Proof.
  intros H.
  destruct H as
    [ | Hrc | j q1 | j q1 n1 H1 | j q1 n1 q2 H1 | j q1 n1 q2 n2 H1 H2
    | j q1 n1 q2 n2 t e H1 H2 Hc
    | j q1 n1 q2 n2 t argv gh_rc H1 H2 Hgh Hc
    | j q1 n1 q2 n2 t argv gh_rc Hrc H1 H2 Hgh Hc ];
    try (destruct (calls_only_quiet t Hc) as (Q1 & Q2 & Q3);
         unfold submitted, reported, found_existing in Q1, Q2, Q3);
    unfold submitted, reported, found_existing;
    cbn [existsb]; rewrite ?observed_app; cbn [existsb];
    rewrite ?Q1, ?Q2, ?Q3, ?H1, ?H2, ?Hgh; cbn [orb];
    (split; intros Hobs; try discriminate Hobs); now repeat split.
Qed.

(** C1, as the code has it: a run that files a new issue ([gh] returned 0)
    is the run of a classified failure for which neither search found an
    issue; it ends in [sys.exit] with the return code of the build, which
    is not zero, and the exit status of the process is that code modulo
    256, which is not zero either for a return code of [poll()]. *)
Theorem filed_report_exits_with_returncode
    (a : Args) (w : World) (build_result : ProcessResult) :
  submitted (trace a w build_result) = true ->
  outcome a w build_result = Exit (returncode build_result)
  /\ returncode build_result <> 0%Z
  /\ found_existing (trace a w build_result) = false
  /\ (exists ix rec, classify build_result = Classified ix rec)
  /\ exit_status (outcome a w build_result)
     = (returncode build_result mod 256)%Z
  /\ ((-256 < returncode build_result < 256)%Z ->
      exit_status (outcome a w build_result) <> 0%Z).
Proof.
  intros Hsub.
  assert (Hne : trace a w build_result <> []).
  { intros E. rewrite E in Hsub. discriminate. }
  pose proof (searched_run_classified a w build_result Hne) as Hcls.
  destruct (shape_observations _ _ _ (main_run_shape a w build_result))
    as [Hfiled _].
  destruct (Hfiled Hsub) as (Ho & Hrc & Hfound).
  rewrite Ho. cbn [exit_status]. repeat split; try assumption.
  intros Hrange Hmod.
  apply Z.mod_divide in Hmod; [|lia].
  destruct Hmod as [k Hk]. lia.
Qed.

(** C2: when the search answers a query of the run with a count above
    zero, the failure was classified, the script exits with 0 and [gh] is
    never called. *)
Theorem existing_issue_exits_zero
    (a : Args) (w : World) (build_result : ProcessResult) :
  found_existing (trace a w build_result) = true ->
  outcome a w build_result = Exit 0
  /\ reported (trace a w build_result) = false
  /\ exists ix rec, classify build_result = Classified ix rec.
Proof.
  intros Hfound.
  assert (Hne : trace a w build_result <> []).
  { intros E. rewrite E in Hfound. discriminate. }
  pose proof (searched_run_classified a w build_result Hne) as Hcls.
  destruct (shape_observations _ _ _ (main_run_shape a w build_result))
    as [_ Hknown].
  destruct (Hknown Hfound) as (Ho & Hrep).
  now repeat split.
Qed.

(** *** The marker line of [foo-1.2.3] *)

Lemma enumerate_from_app {A : Type} (n : nat) (l1 l2 : list A) :
  enumerate_from n (l1 ++ l2)
  = enumerate_from n l1 ++ enumerate_from (n + List.length l1) l2.
Proof.
  revert n; induction l1 as [|x l1 IH]; intros n; simpl.
  - now rewrite Nat.add_0_r.
  - rewrite IH. do 3 f_equal. lia.
Qed.

Lemma matching_lines_app (l1 l2 : list (nat * text)) :
  matching_lines (l1 ++ l2) = matching_lines l1 ++ matching_lines l2.
Proof.
  induction l1 as [|[ix line] l1 IH]; [reflexivity|].
  simpl. destruct (re_match first_error_line_re line); simpl; now rewrite IH.
Qed.

Lemma matching_lines_none (n : nat) (l : list text) :
  marker_count l = 0 -> matching_lines (enumerate_from n l) = [].
Proof.
  intros H. apply length_zero_iff_nil. now rewrite matching_lines_count.
Qed.

Lemma marker_count_app (l1 l2 : list text) :
  marker_count (l1 ++ l2) = marker_count l1 + marker_count l2.
Proof. unfold marker_count. now rewrite filter_app, length_app. Qed.

Lemma marker_count_cons (x : text) (l : list text) :
  marker_count (x :: l)
  = (if is_marker_line x then 1 else 0) + marker_count l.
Proof. unfold marker_count. simpl. now destruct (is_marker_line x). Qed.

(** A single marker line among lines that are none is found at its index. *)
Lemma first_error_line_single (pre rest : list text) (line : text) (m : Match) :
  marker_count pre = 0 ->
  re_match first_error_line_re line = Some m ->
  marker_count rest = 0 ->
  first_error_line_ (pre ++ line :: rest) = [(List.length pre, m)].
Proof.
  intros Hpre Hm Hrest. unfold first_error_line_, enumerate.
  rewrite enumerate_from_app, matching_lines_app.
  rewrite (matching_lines_none 0 pre Hpre).
  cbn [enumerate_from matching_lines app Nat.add].
  rewrite Hm. now rewrite (matching_lines_none _ _ Hrest).
Qed.

Lemma foo_marker_groups (ending : text) :
  ending = [] \/ ending = [newline] ->
  option_map (fun m => (group_of m 1, group_of m 2))
             (re_match first_error_line_re (Samples.foo_marker ++ ending))
  = Some (Samples.foo_hash, str "foo-1.2.3").
Proof. intros [-> | ->]; vm_compute; reflexivity. Qed.

Lemma foo_marker_match (ending : text) :
  ending = [] \/ ending = [newline] ->
  exists m, re_match first_error_line_re (Samples.foo_marker ++ ending) = Some m
            /\ group_of m 1 = Samples.foo_hash
            /\ group_of m 2 = str "foo-1.2.3".
Proof.
  intros H. apply foo_marker_groups in H.
  destruct (re_match first_error_line_re (Samples.foo_marker ++ ending))
    as [m|]; [|discriminate].
  simpl in H. injection H as H1 H2. now exists m.
Qed.

(** C5, as the code has it: in the error lines of a failed build that
    hold neither the disk-space phrase nor [Killed], the marker line of
    [foo-1.2.3] (the only marker line), then a header line and ten content
    lines give the package [foo-1.2.3], the build identifier
    [abcdefghijklmnopqrstuvwxyz123456] and the ten content lines as
    excerpt. *)
Theorem classify_foo
    (rc : Z) (out pre post content : list text) (ending header : text) :
  let buffer :=
    pre ++ (Samples.foo_marker ++ ending) :: header :: content ++ post in
  rc <> 0%Z ->
  ending = [] \/ ending = [newline] ->
  List.length content = 10 ->
  contains (str "no space left on device") (lower (join [] buffer)) = false ->
  contains (str "Killed") (join [] buffer) = false ->
  marker_count buffer = 1 ->
  classify {| returncode := rc; stdout := out; stderr := buffer |}
  = Classified (List.length pre)
      {| failing_drv_hash := str "abcdefghijklmnopqrstuvwxyz123456";
         failing_pname_version := str "foo-1.2.3";
         excerpt := content |}.
Proof.
  intros buffer Hrc Hend Hlen Hspace Hkill Hcount.
  destruct (foo_marker_match ending Hend) as (m & Hm & Hg1 & Hg2).
  unfold Samples.foo_hash in Hg1.
  subst buffer. remember (Samples.foo_marker ++ ending) as line eqn:Eline.
  clear Eline Hend.
  assert (Hline : is_marker_line line = true)
    by (unfold is_marker_line; now rewrite Hm).
  assert (Hpre : marker_count pre = 0 /\
                 marker_count (header :: content ++ post) = 0).
  { rewrite marker_count_app, marker_count_cons, Hline in Hcount. lia. }
  destruct Hpre as [Hpre Hrest].
  assert (Hfirst : first_error_line_
                     (pre ++ line :: header :: content ++ post)
                   = [(List.length pre, m)]).
  { now apply first_error_line_single. }
  apply Z.eqb_neq in Hrc.
  unfold classify. cbn [returncode stderr].
  rewrite Hrc, Hspace, Hkill, Hfirst, Hg1, Hg2.
  do 2 f_equal. unfold last_10_log_lines, slice.
  replace (List.length pre + 12 - (List.length pre + 2)) with 10 by lia.
  rewrite skipn_app, skipn_all2 by lia.
  replace (List.length pre + 2 - List.length pre) with 2 by lia.
  cbn [skipn app]. rewrite <- Hlen. rewrite firstn_app, firstn_all, Nat.sub_diag.
  cbn [firstn]. apply app_nil_r.
Qed.

(** *** The substitution passes *)






(** *** The tags *)

(** C8 on two excerpts that differ only in the hash of a store path: the
    first pass removes [0a1s] from the first hash, the store-path pass then
    finds 28 word characters only and leaves that path in place, and the
    two tags differ. *)
Theorem store_hash_changes_logs_tag :
  let pure_a := last_10_log_lines_pure (Samples.excerpt_with Samples.store_hash_a) in
  let pure_b := last_10_log_lines_pure (Samples.excerpt_with Samples.store_hash_b) in
  String.length Samples.store_hash_a = 32
  /\ String.length Samples.store_hash_b = 32
  /\ pure_a = Samples.eol "/nix/store/bcdfghijklmnpqrsvwxyz0123456-stdenv-linux/setup: line 1639: cmake: command not found"
  /\ pure_b = Samples.eol "-stdenv-linux/setup: line 1639: cmake: command not found"
  /\ logs_tag Samples.seed0 (str "foo-1.2.3") pure_a = (-3496214076859818548)%Z
  /\ logs_tag Samples.seed0 (str "foo-1.2.3") pure_b = 6115482308774148327%Z.
Proof. vm_compute. repeat split. Qed.



(** *** Sample runs *)

(** C1 as stated fails on [foo_failed] in a world without existing issues:
    the failure is classified, both searches find nothing, the issue is
    filed, and the exit code is 1. *)
Lemma filed_report_exit_is_not_zero :
  (exists ix rec, classify Samples.foo_failed = Classified ix rec)
  /\ found_existing (trace Samples.foo_args Samples.quiet_world Samples.foo_failed)
     = false
  /\ submitted (trace Samples.foo_args Samples.quiet_world Samples.foo_failed)
     = true
  /\ outcome Samples.foo_args Samples.quiet_world Samples.foo_failed = Exit 1
  /\ outcome Samples.foo_args Samples.quiet_world Samples.foo_failed <> Exit 0
  /\ exit_status (outcome Samples.foo_args Samples.quiet_world
                          Samples.foo_failed) = 1%Z.
Proof.
  split.
  - apply (searched_run_classified Samples.foo_args Samples.quiet_world).
    vm_compute. discriminate.
  - repeat split; try (vm_compute; reflexivity).
    vm_compute. discriminate.
Qed.

Lemma filed_report_witness :
  submitted (trace Samples.foo_args Samples.quiet_world Samples.foo_failed) = true
  /\ outcome Samples.foo_args Samples.quiet_world Samples.foo_failed
     = Exit (returncode Samples.foo_failed).
Proof.
  assert (H : submitted (trace Samples.foo_args Samples.quiet_world
                               Samples.foo_failed) = true)
    by (vm_compute; reflexivity).
  split; [exact H|].
  exact (proj1 (filed_report_exits_with_returncode
                  Samples.foo_args Samples.quiet_world Samples.foo_failed H)).
Defined.

Lemma existing_issue_witness :
  found_existing (trace Samples.foo_args Samples.known_world Samples.foo_failed)
  = true
  /\ outcome Samples.foo_args Samples.known_world Samples.foo_failed = Exit 0
  /\ reported (trace Samples.foo_args Samples.known_world Samples.foo_failed)
     = false.
Proof.
  assert (H : found_existing (trace Samples.foo_args Samples.known_world
                                    Samples.foo_failed) = true)
    by (vm_compute; reflexivity).
  split; [exact H|].
  destruct (existing_issue_exits_zero
              Samples.foo_args Samples.known_world Samples.foo_failed H)
    as (Ho & Hr & _).
  split; assumption.
Defined.

(** C3 as stated fails on a build that SIGTERM ended: the return code is
    -15, the buffer holds no marker line and no environmental marker, the
    failure is unclassifiable, and the script ends with status 241. *)
Lemma terminated_exit_status_differs :
  returncode Samples.terminated_failed = (-15)%Z
  /\ marker_count (stderr Samples.terminated_failed) = 0
  /\ contains (str "no space left on device")
              (lower (join [] (stderr Samples.terminated_failed))) = false
  /\ contains (str "Killed") (join [] (stderr Samples.terminated_failed))
     = false
  /\ classify Samples.terminated_failed = Unclassifiable
  /\ exit_status (outcome Samples.foo_args Samples.quiet_world
                          Samples.terminated_failed) = 241%Z
  /\ exit_status (outcome Samples.foo_args Samples.quiet_world
                          Samples.terminated_failed)
     <> returncode Samples.terminated_failed.
Proof.
  repeat split; try (vm_compute; reflexivity).
  vm_compute. discriminate.
Qed.

Lemma unclassifiable_witness :
  classify Samples.terminated_failed = Unclassifiable
  /\ run_script (main Samples.foo_args Samples.quiet_world
                      Samples.terminated_failed)
     = ([], Exit (-15))
  /\ exit_status (outcome Samples.foo_args Samples.quiet_world
                          Samples.terminated_failed) = (-15 mod 256)%Z.
Proof.
  destruct (unclassifiable_keeps_returncode
              Samples.foo_args Samples.quiet_world Samples.terminated_failed)
    as (Hcls & Hrun & Hstatus & _).
  - discriminate.
  - vm_compute; reflexivity.
  - vm_compute; reflexivity.
  - left. vm_compute; reflexivity.
  - repeat split; assumption.
Defined.

Lemma environmental_failure_witness :
  run_script (main Samples.foo_args Samples.quiet_world Samples.disk_full_failed)
  = ([], Exit 0)
  /\ reported (trace Samples.foo_args Samples.quiet_world
                     Samples.disk_full_failed) = false.
Proof.
  apply environmental_failure_exits_zero. left.
  exists (str "error: writing to file: "), (str "No space left on device"),
         [newline].
  split; reflexivity.
Defined.

(** C5 as stated fails on a buffer of the marker line, the header and ten
    content lines of which one reports a killed compiler: the failure is
    not classified. *)
Lemma foo_killed_not_classified :
  exists header content,
    stderr Samples.foo_killed
    = (Samples.foo_marker ++ [newline]) :: header :: content
    /\ header = Samples.eol "       last 10 log lines:"
    /\ List.length content = 10
    /\ marker_count (stderr Samples.foo_killed) = 1
    /\ returncode Samples.foo_killed = 1%Z
    /\ classify Samples.foo_killed = NotReportable Killed
    /\ forall ix rec, classify Samples.foo_killed <> Classified ix rec.
Proof.
  eexists _, _. split; [reflexivity|].
  repeat split; try (vm_compute; reflexivity).
  intros ix rec. vm_compute. discriminate.
Qed.


Lemma classify_foo_witness :
  classify Samples.foo_failed
  = Classified 0
      {| failing_drv_hash := str "abcdefghijklmnopqrstuvwxyz123456";
         failing_pname_version := str "foo-1.2.3";
         excerpt := Samples.ten_lines |}.
Proof.
  refine (classify_foo 1 [] [] [] Samples.ten_lines [newline]
            (Samples.eol "       last 10 log lines:") _ _ _ _ _ _).
  - discriminate.
  - right; reflexivity.
  - reflexivity.
  - vm_compute; reflexivity.
  - vm_compute; reflexivity.
  - vm_compute; reflexivity.
Defined.

(** C6 as stated fails on a build that printed three lines of log: the
    failure is classified and the excerpt holds three lines, not ten. *)
Lemma short_log_excerpt_not_ten :
  exists ix rec,
    classify Samples.foo_failed_short = Classified ix rec
    /\ List.length (excerpt rec) = 3
    /\ List.length (excerpt rec) <> 10.
Proof.
  exists 0,
    {| failing_drv_hash := Samples.foo_hash;
       failing_pname_version := str "foo-1.2.3";
       excerpt := skipn 2 (stderr Samples.foo_failed_short) |}.
  split; [vm_compute; reflexivity|]. split; [reflexivity|discriminate].
Qed.

Lemma excerpt_at_most_ten_witness :
  let rec :=
    {| failing_drv_hash := Samples.foo_hash;
       failing_pname_version := str "foo-1.2.3";
       excerpt := skipn 2 (stderr Samples.foo_failed_short) |} in
  classify Samples.foo_failed_short = Classified 0 rec
  /\ List.length (excerpt rec)
     = Nat.min 10 (List.length (stderr Samples.foo_failed_short) - (0 + 2)).
Proof.
  intros rec.
  assert (H : classify Samples.foo_failed_short = Classified 0 rec)
    by (vm_compute; reflexivity).
  split; [exact H|].
  exact (proj2 (excerpt_at_most_ten Samples.foo_failed_short 0 rec H)).
Defined.


End CanarySpec.

(* ================================================================== *)
(** ** Properties of the capture loop *)
(* ================================================================== *)

Module MultiplexerSpec.
Import Py Multiplexer.

Lemma lines_read_cons (fd : Fd) (x : Fd * bytes) (l : list (Fd * bytes))
    (p : option Z) :
  lines_read fd {| ready := x :: l; poll := p |}
  = (if (fd_eqb (fst x) fd && negb (is_empty (snd x)))%bool
     then [snd x] else [])
    ++ lines_read fd {| ready := l; poll := p |}.
Proof.
  unfold lines_read. simpl.
  now destruct (fd_eqb (fst x) fd && negb (is_empty (snd x)))%bool.
Qed.

(** What the [for] loop of one turn does to the state. *)
Lemma fold_on_ready (l : list (Fd * bytes)) (p : option Z) (st : LoopState) :
  let wk := {| ready := l; poll := p |} in
  fold_left on_ready l st
  = {| stdout_buf := stdout_buf st ++ lines_read FdStdout wk;
       stderr_buf := stderr_buf st ++ lines_read FdStderr wk;
       text_out := text_out st;
       console := console st
                  ++ map echo (filter (fun x => negb (is_empty (snd x))) l);
       no_read := (no_read st && quiet wk)%bool |}.
Proof.
  revert st. induction l as [|[fd read] l IH]; intros st; simpl.
  - unfold lines_read, quiet. simpl. rewrite !app_nil_r, andb_true_r.
    now destruct st.
  - simpl in IH. rewrite IH. unfold quiet. simpl.
    rewrite !lines_read_cons. simpl.
    destruct fd, read as [|c read]; simpl;
      rewrite <- ?app_assoc, ?andb_false_r; reflexivity.
Qed.

Lemma turn_state (wk : Wakeup) (st : LoopState) :
  fold_left on_ready (ready wk) (begin_turn st)
  = {| stdout_buf := stdout_buf st ++ lines_read FdStdout wk;
       stderr_buf := stderr_buf st ++ lines_read FdStderr wk;
       text_out := text_out st;
       console := console st
                  ++ map echo (filter (fun x => negb (is_empty (snd x)))
                                      (ready wk));
       no_read := quiet wk |}.
Proof.
  destruct wk as [l p]. simpl. now rewrite (fold_on_ready l p).
Qed.

Lemma quiet_reads_nothing (fd : Fd) (wk : Wakeup) :
  quiet wk = true -> lines_read fd wk = [].
Proof.
  unfold quiet, lines_read. induction (ready wk) as [|x l IH]; simpl;
    [reflexivity|].
  intros H. apply andb_prop in H as [Hx Hl]. rewrite Hx, andb_false_r.
  now apply IH.
Qed.

Lemma quiet_echoes_nothing (wk : Wakeup) :
  quiet wk = true ->
  filter (fun x => negb (is_empty (snd x))) (ready wk) = [].
Proof.
  unfold quiet. induction (ready wk) as [|x l IH]; simpl; [reflexivity|].
  intros H. apply andb_prop in H as [Hx Hl]. rewrite Hx. now apply IH.
Qed.

Lemma run_loop_no_read (turns : list Wakeup) (st : LoopState) (q : bool) :
  run_loop turns st
  = run_loop turns {| stdout_buf := stdout_buf st;
                      stderr_buf := stderr_buf st;
                      text_out := text_out st;
                      console := console st;
                      no_read := q |}.
Proof. destruct turns; reflexivity. Qed.

Lemma run_loop_skip (pre rest : list Wakeup) :
  Forall (fun wk => final wk = false) pre ->
  forall st, run_loop (pre ++ rest) st = run_loop rest (after pre st true).
Proof.
  induction 1 as [|wk pre Hwk Hpre IH]; intros st.
  - unfold after, all_read, echoed. simpl. rewrite !app_nil_r.
    apply run_loop_no_read.
  - simpl. rewrite turn_state. cbn [no_read].
    assert (Hgo : forall q,
      run_loop (pre ++ rest)
        {| stdout_buf := stdout_buf st ++ lines_read FdStdout wk;
           stderr_buf := stderr_buf st ++ lines_read FdStderr wk;
           text_out := text_out st;
           console := console st
             ++ map echo (filter (fun x => negb (is_empty (snd x))) (ready wk));
           no_read := q |}
      = run_loop rest (after (wk :: pre) st true)).
    { intros q. rewrite IH. unfold after, all_read, echoed. simpl.
      now rewrite <- !app_assoc. }
    unfold final in Hwk. destruct (quiet wk); [|apply Hgo].
    destruct (poll wk); [discriminate|apply Hgo].
Qed.

Lemma run_loop_final (wk : Wakeup) (post : list Wakeup) (st : LoopState)
    (code : Z) :
  quiet wk = true -> poll wk = Some code ->
  run_loop (wk :: post) st
  = Some ({| cap_returncode := code;
             cap_stdout := stdout_buf st;
             cap_stderr := stderr_buf st |}, console st).
Proof.
  intros Hq Hp. simpl. rewrite turn_state. cbn [no_read stdout_buf stderr_buf
    console]. rewrite Hq, Hp, !quiet_reads_nothing, quiet_echoes_nothing by
    assumption.
  simpl. now rewrite !app_nil_r.
Qed.

(** Every list of turns either has no final turn or splits at its first. *)
Lemma first_final (turns : list Wakeup) :
  Forall (fun wk => final wk = false) turns
  \/ exists pre wk post,
       turns = pre ++ wk :: post
       /\ Forall (fun wk => final wk = false) pre /\ final wk = true.
Proof.
  induction turns as [|wk turns [IH|(pre & w & post & -> & Hpre & Hw)]].
  - left. constructor.
  - destruct (final wk) eqn:E.
    + right. exists [], wk, turns. repeat split; [constructor|assumption].
    + left. now constructor.
  - destruct (final wk) eqn:E.
    + right. exists [], wk, (pre ++ w :: post).
      repeat split; [constructor|assumption].
    + right. exists (wk :: pre), w, post. repeat split; [|assumption].
      now constructor.
Qed.

Lemma run_loop_waits (turns : list Wakeup) (st : LoopState) :
  Forall (fun wk => final wk = false) turns -> run_loop turns st = None.
Proof.
  intros H. rewrite <- (app_nil_r turns). now rewrite run_loop_skip.
Qed.

(** X1: when [run] returns, it does so on the first turn in which no pipe
    gave content and the child is seen exited; the return code is what
    [poll] said on that turn, and the two buffers hold, in the order read,
    exactly the lines with content that [readline] gave on the respective
    pipe before that turn. *)
Theorem run_captures_in_order
    (cmd_args : list text) (turns : list Wakeup) (res : Captured)
    (con : list (Fd * bytes)) :
  run cmd_args turns = Some (res, con) ->
  exists pre wk post,
    turns = pre ++ wk :: post
    /\ Forall (fun w => final w = false) pre
    /\ quiet wk = true
    /\ poll wk = Some (cap_returncode res)
    /\ cap_stdout res = all_read FdStdout pre
    /\ cap_stderr res = all_read FdStderr pre.
Proof.
  unfold run. intros H.
  destruct (first_final turns) as [Hnone|(pre & wk & post & -> & Hpre & Hw)].
  - now rewrite run_loop_waits in H.
  - exists pre, wk, post. rewrite run_loop_skip in H by assumption.
    unfold final in Hw. apply andb_prop in Hw as [Hq Hp].
    destruct (poll wk) as [code|] eqn:Ep; [|discriminate].
    rewrite (run_loop_final wk post _ code Hq Ep) in H.
    injection H as <- <-. now repeat split.
Qed.

(** X2: [run] returns exactly when some turn is final; as long as every
    turn either gives content or finds the child still running, the loop
    keeps waiting. *)
Theorem run_returns_iff_final_turn (cmd_args : list text)
    (turns : list Wakeup) :
  run cmd_args turns <> None <-> existsb final turns = true.
Proof.
  unfold run. split.
  - intros H. destruct (first_final turns)
      as [Hnone|(pre & wk & post & -> & Hpre & Hw)].
    + now rewrite run_loop_waits in H.
    + rewrite existsb_app. simpl. rewrite Hw. now rewrite orb_true_r.
  - intros H. destruct (first_final turns)
      as [Hnone|(pre & wk & post & -> & Hpre & Hw)].
    + rewrite Forall_forall in Hnone. apply existsb_exists in H
        as (wk & Hin & Hw). rewrite (Hnone _ Hin) in Hw. discriminate.
    + rewrite run_loop_skip by assumption.
      unfold final in Hw. apply andb_prop in Hw as [Hq Hp].
      destruct (poll wk) as [code|] eqn:Ep; [|discriminate].
      now rewrite (run_loop_final wk post _ code Hq Ep).
Qed.

Lemma run_captures_witness :
  run sample_cmd sample_turns = Some (sample_captured, sample_console)
  /\ exists pre wk post,
       sample_turns = pre ++ wk :: post
       /\ Forall (fun w => final w = false) pre
       /\ quiet wk = true
       /\ poll wk = Some (cap_returncode sample_captured)
       /\ cap_stdout sample_captured = all_read FdStdout pre
       /\ cap_stderr sample_captured = all_read FdStderr pre.
Proof.
  assert (H : run sample_cmd sample_turns
              = Some (sample_captured, sample_console))
    by reflexivity.
  split; [exact H|].
  exact (run_captures_in_order sample_cmd sample_turns sample_captured
           sample_console H).
Defined.

(** X3: a wakeup in which every ready pipe gives the empty bytes while the
    child is still running changes nothing: with or without it, [run]
    gives the same result and the same console output. *)
Theorem run_ignores_spurious_wakeup
    (cmd_args : list text) (pre post : list Wakeup) (idle : Wakeup) :
  quiet idle = true -> poll idle = None ->
  run cmd_args (pre ++ idle :: post) = run cmd_args (pre ++ post).
Proof.
  intros Hq Hp. unfold run.
  generalize {| stdout_buf := []; stderr_buf := [];
                text_out := [announce cmd_args]; console := [];
                no_read := true |}.
  induction pre as [|wk pre IH]; intros st.
  - simpl. rewrite turn_state. cbn [no_read]. rewrite Hq, Hp.
    rewrite !quiet_reads_nothing, quiet_echoes_nothing by assumption.
    simpl. rewrite !app_nil_r. symmetry. apply run_loop_no_read.
  - simpl. destruct (no_read _); [destruct (poll wk)|]; try reflexivity;
      apply IH.
Qed.

Lemma run_ignores_spurious_witness :
  run sample_cmd
      ([] ++ {| ready := [(FdStderr, [])]; poll := None |} :: sample_turns)
  = run sample_cmd ([] ++ sample_turns).
Proof.
  apply run_ignores_spurious_wakeup; reflexivity.
Defined.

Lemma console_of_app (fd : Fd) (a b : list (Fd * bytes)) :
  console_of fd (a ++ b) = console_of fd a ++ console_of fd b.
Proof. unfold console_of. now rewrite filter_app, map_app. Qed.

Lemma console_of_turn (fd : Fd) (wk : Wakeup) :
  console_of fd (map echo (filter (fun x => negb (is_empty (snd x)))
                                  (ready wk)))
  = map (app (prefix_of fd)) (lines_read fd wk).
Proof.
  unfold console_of, lines_read.
  induction (ready wk) as [|[f read] l IH]; [reflexivity|].
  simpl. destruct read as [|c read]; simpl.
  - rewrite andb_false_r. exact IH.
  - rewrite andb_true_r. unfold echo at 1. simpl.
    destruct f, fd; simpl; now rewrite IH.
Qed.

Lemma console_of_echoed (fd : Fd) (turns : list Wakeup) :
  console_of fd (echoed turns) = map (app (prefix_of fd)) (all_read fd turns).
Proof.
  unfold echoed, all_read. induction turns as [|wk turns IH]; [reflexivity|].
  simpl. now rewrite console_of_app, map_app, console_of_turn, IH.
Qed.

(** Every write of the loop echoes one captured line. *)
Lemma echoed_length (turns : list Wakeup) :
  List.length (echoed turns)
  = List.length (all_read FdStdout turns)
    + List.length (all_read FdStderr turns).
Proof.
  unfold echoed, all_read. induction turns as [|wk turns IH]; [reflexivity|].
  cbn [flat_map]. rewrite !length_app, IH, length_map.
  assert (Hturn : List.length (filter (fun x => negb (is_empty (snd x)))
                                      (ready wk))
                  = List.length (lines_read FdStdout wk)
                    + List.length (lines_read FdStderr wk)).
  { unfold lines_read. rewrite !length_map.
    induction (ready wk) as [|[f read] l IHl]; [reflexivity|].
    destruct f, read as [|c read]; simpl in IHl |- *; lia. }
  rewrite Hturn. lia.
Qed.

Lemma all_read_content (fd : Fd) (turns : list Wakeup) :
  Forall (fun line => line <> []) (all_read fd turns).
Proof.
  unfold all_read. apply Forall_forall. intros line Hin.
  apply in_flat_map in Hin as (wk & _ & Hin). unfold lines_read in Hin.
  apply in_map_iff in Hin as (x & <- & Hin).
  apply filter_In in Hin as [_ Hx]. apply andb_prop in Hx as [_ Hx].
  now destruct (snd x).
Qed.

(** X4: the writes of [run] to the byte layer of each console stream are,
    line for line and in the same order, what it captured from the
    matching pipe, each line behind its prefix; and no captured line is
    empty.  The line [print] announces the command with goes through the
    text layer and is not among them. *)
Theorem run_echoes_what_it_captures
    (cmd_args : list text) (turns : list Wakeup) (res : Captured)
    (con : list (Fd * bytes)) :
  run cmd_args turns = Some (res, con) ->
  console_of FdStdout con = map (app (str "stdout: ")) (cap_stdout res)
  /\ console_of FdStderr con = map (app (str "stderr: ")) (cap_stderr res)
  /\ List.length con
     = List.length (cap_stdout res) + List.length (cap_stderr res)
  /\ Forall (fun line => line <> []) (cap_stdout res)
  /\ Forall (fun line => line <> []) (cap_stderr res).
Proof.
  unfold run. intros H.
  destruct (first_final turns) as [Hnone|(pre & wk & post & -> & Hpre & Hw)].
  - now rewrite run_loop_waits in H.
  - rewrite run_loop_skip in H by assumption.
    unfold final in Hw. apply andb_prop in Hw as [Hq Hp].
    destruct (poll wk) as [code|] eqn:Ep; [|discriminate].
    rewrite (run_loop_final wk post _ code Hq Ep) in H.
    injection H as <- <-.
    cbn [cap_stdout cap_stderr stdout_buf stderr_buf console after app].
    split; [apply (console_of_echoed FdStdout pre)|].
    split; [apply (console_of_echoed FdStderr pre)|].
    split; [apply echoed_length|].
    split; apply all_read_content.
Qed.

Lemma run_echoes_witness :
  console_of FdStdout sample_console
  = map (app (str "stdout: ")) (cap_stdout sample_captured)
  /\ console_of FdStderr sample_console
     = map (app (str "stderr: ")) (cap_stderr sample_captured).
Proof.
  destruct (run_echoes_what_it_captures sample_cmd sample_turns
              sample_captured sample_console eq_refl) as (Ho & He & _).
  split; assumption.
Defined.

End MultiplexerSpec.

(* ================================================================== *)
(** ** Further facts about matching and substitution *)
(* ================================================================== *)

Module ReMore.
Import Py Re Notions PyFacts ReFacts.

Lemma concat_singles (cs : text) : List.concat (singles cs) = cs.
Proof. induction cs as [|c cs IH]; simpl; now rewrite ?IH. Qed.

(** The pieces of a match start with one piece per literal character. *)
Lemma accepts_lits (cs : text) (r : regex) (ps : list text) :
  accepts (map (fun c => It false (Chr (exactly c))) cs ++ r) ps ->
  exists ps', ps = singles cs ++ ps' /\ accepts r ps'.
Proof.
  revert ps. induction cs as [|c cs IH]; intros ps H.
  - now exists ps.
  - destruct ps as [|p ps]; [destruct H|].
    simpl in H. destruct H as [(d & -> & Hd) H].
    apply Ascii.eqb_eq in Hd. subst d.
    destruct (IH _ H) as (ps' & -> & Ha). now exists ps'.
Qed.

Lemma accepts_lits_intro (cs : text) (r : regex) (ps : list text) :
  accepts r ps ->
  accepts (map (fun c => It false (Chr (exactly c))) cs ++ r) (singles cs ++ ps).
Proof.
  intros H. induction cs as [|c cs IH]; [exact H|].
  simpl. split; [|exact IH]. exists c. split; [reflexivity|].
  apply Ascii.eqb_refl.
Qed.

Lemma captures_lits (cs : text) (r : regex) (ps : list text) :
  captures (map (fun c => It false (Chr (exactly c))) cs ++ r) (singles cs ++ ps)
  = captures r ps.
Proof. induction cs as [|c cs IH]; [reflexivity|exact IH]. Qed.

(** A match starts with a character of the first class of its pattern. *)
Lemma match_first_class (r : regex) (cls : ascii -> bool) (s : text)
    (ps : list text) :
  first_class r = Some cls -> match_items r s = Some ps ->
  exists c s', s = c :: s' /\ cls c = true.
Proof.
  intros Hf Hm. destruct (match_items_sound r s ps Hm) as [Ha [rest ->]].
  destruct r as [|[cap [k|k [|lo] hi]] r]; try discriminate;
    injection Hf as ->; destruct ps as [|p ps]; try destruct Ha.
  - destruct H as (c & -> & Hc). now exists c, (List.concat ps ++ rest).
  - destruct H0 as [[Hlo _] _]. destruct p as [|c p]; [simpl in Hlo; lia|].
    simpl in H. apply andb_prop in H as [Hc _].
    exists c, (p ++ List.concat ps ++ rest). split; [|exact Hc].
    simpl. now rewrite <- app_assoc.
Qed.

(** A text without a character of that class holds no match. *)
Lemma search_without_first_class (r : regex) (cls : ascii -> bool) (s : text) :
  first_class r = Some cls -> forallb (fun c => negb (cls c)) s = true ->
  search r s = false.
Proof.
  intros Hf Hs. apply search_false. intros i.
  destruct (match_items r (skipn i s)) as [ps|] eqn:E; [|reflexivity].
  destruct (match_first_class r cls _ ps Hf E) as (c & s' & Hc & Hcls).
  rewrite forallb_forall in Hs.
  assert (In c s) as Hin.
  { rewrite <- (firstn_skipn i s), Hc. apply in_or_app. right. now left. }
  specialize (Hs _ Hin). rewrite Hcls in Hs. discriminate.
Qed.

(** *** Substitution only deletes, and never a line break *)

Lemma subseq_refl (s : text) : Subseq s s.
Proof. induction s; now constructor. Qed.

Lemma subseq_trans (a b c : text) : Subseq a b -> Subseq b c -> Subseq a c.
Proof.
  intros Hab Hbc. revert a Hab.
  induction Hbc as [|x b c Hbc IH|x b c Hbc IH]; intros a Hab.
  - exact Hab.
  - inversion Hab; subst; constructor; now apply IH.
  - constructor. now apply IH.
Qed.

Lemma subseq_length (a b : text) : Subseq a b -> List.length a <= List.length b.
Proof. induction 1; simpl; lia. Qed.

Lemma sub_from_subseq (r : regex) (s : text) :
  forall k, Subseq (sub_from r k s) s.
Proof.
  induction s as [|c s IH]; intros k; simpl; [constructor|].
  destruct k; [|now constructor].
  destruct (re_match r (c :: s)) as [m|]; [|now constructor].
  destruct (span m); now constructor.
Qed.

Lemma sub_subseq (r : regex) (s : text) : Subseq (sub r s) s.
Proof. apply sub_from_subseq. Qed.

Lemma match_span_on_line (r : regex) (s : text) (m : Match) :
  nl_free r = true -> re_match r s = Some m ->
  span m <= List.length (first_line s).
Proof.
  intros Hf Hm. unfold re_match in Hm.
  destruct (match_items r s) as [ps|] eqn:E; [|discriminate].
  injection Hm as <-. unfold span. simpl.
  destruct (match_items_sound r s ps E) as [Ha [rest ->]].
  rewrite first_line_app by now apply (accepts_nl_free r Hf).
  rewrite length_app. lia.
Qed.

Lemma sub_from_line_breaks (r : regex) :
  nl_free r = true ->
  forall s k, k <= List.length (first_line s) ->
  line_breaks (sub_from r k s) = line_breaks s.
Proof.
  intros Hf. unfold line_breaks.
  induction s as [|c s IH]; intros k Hk; [reflexivity|].
  simpl in Hk. simpl sub_from. destruct k as [|k].
  - assert (Hkeep : List.length (filter (Ascii.eqb newline)
                                        (c :: sub_from r 0 s))
                    = List.length (filter (Ascii.eqb newline) (c :: s))).
    { cbn [filter]. destruct (Ascii.eqb newline c); cbn [List.length];
        rewrite (IH 0) by lia; reflexivity. }
    destruct (re_match r (c :: s)) as [m|] eqn:Em; [|exact Hkeep].
    pose proof (match_span_on_line r _ m Hf Em) as Hspan.
    destruct (span m) as [|n]; [exact Hkeep|].
    cbn [first_line] in Hspan. cbn [filter].
    rewrite Ascii.eqb_sym. destruct (Ascii.eqb c newline);
      cbn [List.length] in Hspan; [lia|]. apply IH. lia.
  - cbn [filter]. rewrite Ascii.eqb_sym.
    destruct (Ascii.eqb c newline); cbn [List.length] in Hk; [lia|].
    apply IH. lia.
Qed.

Lemma sub_line_breaks (r : regex) (s : text) :
  nl_free r = true -> line_breaks (sub r s) = line_breaks s.
Proof. intros Hf. apply sub_from_line_breaks; [exact Hf|lia]. Qed.

End ReMore.

(* ================================================================== *)
(** ** Further properties of the script *)
(* ================================================================== *)

Module CanaryMore.
Import Py Re Canary Notions PyFacts ReFacts ReMore CanarySpec.

(** *** The failure-marker pattern *)

Lemma marker_pieces (ps : list text) :
  accepts first_error_line_re ps ->
  exists g1 g2 c code,
    ps = singles (str "error: builder for '/nix/store/") ++ g1
         :: singles (str "-") ++ g2 :: [c]
         :: singles (str "drv' failed with exit code ") ++ code
         :: singles (str ";")
    /\ List.length g1 = 32 /\ forallb word g1 = true
    /\ forallb dot g2 = true /\ dot c = true
    /\ code <> [] /\ forallb digit code = true.
Proof.
  unfold first_error_line_re. intros Ha.
  unfold lit at 1 in Ha. apply accepts_lits in Ha as (ps1 & -> & Ha).
  cbn [group times map app] in Ha.
  destruct ps1 as [|g1 ps1]; [destruct Ha|]. cbn [accepts] in Ha.
  destruct Ha as (Hw & [Hlo Hhi] & Ha).
  unfold lit at 1 in Ha. apply accepts_lits in Ha as (ps2 & -> & Ha).
  cbn [group star one map app] in Ha.
  destruct ps2 as [|g2 ps2]; [destruct Ha|]. cbn [accepts] in Ha.
  destruct Ha as (Hd & _ & Ha).
  destruct ps2 as [|p ps2]; [destruct Ha|]. cbn [accepts] in Ha.
  destruct Ha as ((c & -> & Hc) & Ha).
  unfold lit at 1 in Ha. apply accepts_lits in Ha as (ps3 & -> & Ha).
  cbn [plus app] in Ha.
  destruct ps3 as [|code ps3]; [destruct Ha|]. cbn [accepts] in Ha.
  destruct Ha as (Hdig & [Hlo' _] & Ha).
  rewrite <- (app_nil_r (lit ";")) in Ha. unfold lit in Ha.
  apply accepts_lits in Ha as (ps4 & -> & Ha).
  destruct ps4; [|destruct Ha]. rewrite app_nil_r.
  exists g1, g2, c, code. repeat split; try assumption; try lia.
  intros ->. simpl in Hlo'. lia.
Qed.

Lemma shape_of_pieces (ps : list text) (rest : text) :
  accepts first_error_line_re ps ->
  marker_shape (List.concat ps ++ rest)
    (group_of {| pieces := ps; pattern := first_error_line_re |} 1)
    (group_of {| pieces := ps; pattern := first_error_line_re |} 2).
Proof.
  intros Ha.
  destruct (marker_pieces ps Ha)
    as (g1 & g2 & c & code & -> & Hlen & Hw & Hd & Hc & Hne & Hdig).
  assert (Hg1 : group_of {| pieces := singles (str "error: builder for '/nix/store/") ++ g1
         :: singles (str "-") ++ g2 :: [c]
         :: singles (str "drv' failed with exit code ") ++ code
         :: singles (str ";"); pattern := first_error_line_re |} 1 = g1)
    by reflexivity.
  assert (Hg2 : group_of {| pieces := singles (str "error: builder for '/nix/store/") ++ g1
         :: singles (str "-") ++ g2 :: [c]
         :: singles (str "drv' failed with exit code ") ++ code
         :: singles (str ";"); pattern := first_error_line_re |} 2 = g2)
    by reflexivity.
  rewrite Hg1, Hg2. exists c, code, rest.
  split; [|repeat split; try assumption].
  - rewrite !concat_app. cbn [List.concat]. rewrite !concat_app.
    cbn [List.concat]. rewrite !concat_app. cbn [List.concat].
    rewrite !concat_singles, <- !app_assoc. reflexivity.
  - now apply (forallb_not_newline dot).
  - now apply (class_not_newline dot).
Qed.

(** X5: a line the failure-marker pattern matches starts with the fixed
    words and the store directory, then the first group, of exactly 32
    word characters, a hyphen, the second group, which holds no line break,
    then any one character other than a line break, the text
    [drv' failed with exit code ], at least one digit and a semicolon. *)
Theorem marker_match_shape (line : text) (m : Match) :
  re_match first_error_line_re line = Some m ->
  marker_shape line (group_of m 1) (group_of m 2).
Proof.
  unfold re_match. intros Hm.
  destruct (match_items first_error_line_re line) as [ps|] eqn:E;
    [|discriminate].
  injection Hm as <-.
  destruct (match_items_sound _ _ _ E) as [Ha [rest ->]].
  now apply shape_of_pieces.
Qed.

Lemma marker_match_shape_witness :
  marker_shape (Samples.foo_marker ++ [newline])
               (str "abcdefghijklmnopqrstuvwxyz123456") (str "foo-1.2.3").
Proof.
  destruct (foo_marker_match [newline] (or_intror eq_refl))
    as (m & E & H1 & H2).
  unfold Samples.foo_hash in H1. rewrite <- H1, <- H2.
  exact (marker_match_shape _ m E).
Defined.

(** X6: every line of that shape is a marker line, whatever follows the
    semicolon; in particular the character before [drv'] need not be a
    full stop. *)
Theorem shaped_line_is_marker (line hash_part name_part : text) :
  marker_shape line hash_part name_part -> is_marker_line line = true.
Proof.
  intros (c & code & rest & -> & Hlen & Hw & Hn & Hc & Hne & Hdig).
  set (ps := singles (str "error: builder for '/nix/store/") ++ hash_part
             :: singles (str "-") ++ name_part :: [c]
             :: singles (str "drv' failed with exit code ") ++ code
             :: singles (str ";")).
  assert (Ha : accepts first_error_line_re ps).
  { unfold first_error_line_re, ps. unfold lit at 1.
    apply accepts_lits_intro. cbn [group times map app accepts].
    split; [exact Hw|]. split; [split; lia|].
    unfold lit at 1. apply accepts_lits_intro.
    cbn [group star one map app accepts].
    split. { apply forallb_forall. intros x Hx. unfold dot.
             apply negb_true_iff, Ascii.eqb_neq. intros ->. contradiction. }
    split; [apply within_zero_nil || (split; [lia|exact I])|].
    split. { exists c. split; [reflexivity|].
             unfold dot. now apply negb_true_iff, Ascii.eqb_neq. }
    unfold lit at 1. apply accepts_lits_intro. cbn [plus app accepts].
    split; [exact Hdig|]. split.
    { split; [|exact I]. destruct code; [contradiction|simpl; lia]. }
    rewrite <- (app_nil_r (lit ";")), <- (app_nil_r (singles (str ";"))).
    unfold lit. apply accepts_lits_intro. exact I. }
  pose proof (match_items_complete first_error_line_re ps rest Ha) as Hm.
  assert (Hc' : List.concat ps ++ rest
                = str "error: builder for '/nix/store/" ++ hash_part ++ str "-"
                  ++ name_part ++ [c] ++ str "drv' failed with exit code "
                  ++ code ++ str ";" ++ rest).
  { unfold ps. rewrite !concat_app. cbn [List.concat]. rewrite !concat_app.
    cbn [List.concat]. rewrite !concat_app. cbn [List.concat].
    rewrite !concat_singles, <- !app_assoc. reflexivity. }
  rewrite Hc' in Hm. unfold is_marker_line, re_match.
  destruct (match_items first_error_line_re _); [reflexivity|contradiction].
Qed.

Lemma shaped_line_witness :
  is_marker_line
    (str "error: builder for '/nix/store/" ++ Samples.foo_hash ++ str "-"
     ++ str "bar" ++ [" "%char] ++ str "drv' failed with exit code "
     ++ str "42" ++ str ";" ++ str " and more") = true.
Proof.
  apply (shaped_line_is_marker _ Samples.foo_hash (str "bar")).
  exists " "%char, (str "42"), (str " and more").
  split; [reflexivity|]. split; [reflexivity|]. split; [reflexivity|].
  split; [vm_compute; intuition discriminate|].
  split; [discriminate|]. split; [discriminate|reflexivity].
Defined.

(** *** The list of marker lines *)

Lemma matching_lines_in (l : list text) :
  forall n ix m,
    In (ix, m) (matching_lines (enumerate_from n l))
    <-> n <= ix
        /\ exists line, nth_error l (ix - n) = Some line
                        /\ re_match first_error_line_re line = Some m.
Proof.
  induction l as [|x l IH]; intros n ix m.
  - simpl. split; [intros []|]. intros (_ & line & H & _).
    destruct (ix - n); discriminate.
  - cbn [enumerate_from matching_lines].
    assert (Htail : In (ix, m) (matching_lines (enumerate_from (S n) l))
                    <-> S n <= ix
                        /\ exists line, nth_error (x :: l) (ix - n) = Some line
                           /\ re_match first_error_line_re line = Some m).
    { rewrite IH. split; intros (Hle & line & Hn & Hm); (split; [lia|]);
        exists line; (split; [|exact Hm]).
      - replace (ix - n) with (S (ix - S n)) by lia. exact Hn.
      - replace (ix - n) with (S (ix - S n)) in Hn by lia. exact Hn. }
    destruct (re_match first_error_line_re x) as [mx|] eqn:Ex.
    + simpl. rewrite Htail. split.
      * intros [H|(Hle & H)].
        -- injection H as <- <-. split; [lia|]. exists x.
           rewrite Nat.sub_diag. now split.
        -- split; [lia|exact H].
      * intros (Hle & line & Hn & Hm).
        destruct (Nat.eq_dec ix n) as [->|Hne].
        -- left. rewrite Nat.sub_diag in Hn. injection Hn as <-.
           congruence.
        -- right. split; [lia|]. now exists line.
    + rewrite Htail. split.
      * intros (Hle & H). split; [lia|exact H].
      * intros (Hle & line & Hn & Hm).
        destruct (Nat.eq_dec ix n) as [->|Hne].
        -- rewrite Nat.sub_diag in Hn. injection Hn as <-. congruence.
        -- split; [lia|]. now exists line.
Qed.

Lemma matching_lines_sorted (l : list text) :
  forall n, StronglySorted lt (map fst (matching_lines (enumerate_from n l))).
Proof.
  induction l as [|x l IH]; intros n; [constructor|].
  cbn [enumerate_from matching_lines].
  destruct (re_match first_error_line_re x) as [mx|]; [|apply IH].
  simpl. constructor; [apply IH|].
  apply Forall_forall. intros ix Hin.
  apply in_map_iff in Hin as ([i m] & <- & Hin).
  apply matching_lines_in in Hin as [Hle _]. simpl. lia.
Qed.

Lemma first_error_line_in (stderr_utf8 : list text) (ix : nat) (m : Match) :
  In (ix, m) (first_error_line_ stderr_utf8)
  <-> exists line, nth_error stderr_utf8 ix = Some line
                   /\ re_match first_error_line_re line = Some m.
Proof.
  unfold first_error_line_, enumerate.
  rewrite matching_lines_in, Nat.sub_0_r. split.
  - now intros [_ H].
  - intros H. split; [lia|exact H].
Qed.

(** X7: [first_error_line_] lists exactly the pairs of an index and a match
    object for which the line at that index of the buffer is matched by the
    pattern with that match object, and it lists them by strictly
    increasing index. *)
Theorem first_error_line_indices (stderr_utf8 : list text) :
  (forall ix m,
      In (ix, m) (first_error_line_ stderr_utf8)
      <-> exists line, nth_error stderr_utf8 ix = Some line
                       /\ re_match first_error_line_re line = Some m)
  /\ StronglySorted lt (map fst (first_error_line_ stderr_utf8)).
Proof.
  split; [|apply matching_lines_sorted].
  intros ix m. apply first_error_line_in.
Qed.

Lemma marker_count_zero (l : list text) :
  marker_count l = 0 <-> Forall (fun line => is_marker_line line = false) l.
Proof.
  unfold marker_count. induction l as [|x l IH]; simpl.
  - split; [constructor|reflexivity].
  - destruct (is_marker_line x) eqn:E; simpl.
    + split; [discriminate|]. intros H. inversion H. congruence.
    + rewrite IH. split; [now constructor|]. intros H. now inversion H.
Qed.

(** X8: in a classified failure the marker line sits at the reported
    index, it has the marker shape with the build identifier and the
    package name and version of the record, no other line of the buffer is
    a marker line, and so no line of the excerpt is one. *)
Theorem classified_marker_is_unique
    (build_result : ProcessResult) (ix : nat) (rec : FailureRecord) :
  classify build_result = Classified ix rec ->
  exists pre line rest,
    stderr build_result = pre ++ line :: rest
    /\ List.length pre = ix
    /\ marker_shape line (failing_drv_hash rec) (failing_pname_version rec)
    /\ Forall (fun l => is_marker_line l = false) (pre ++ rest)
    /\ Forall (fun l => is_marker_line l = false) (excerpt rec).
Proof.
  intros H. destruct (classify_classified _ _ _ H) as (m & Hfirst & ->).
  cbn [failing_drv_hash failing_pname_version excerpt].
  assert (Hin : In (ix, m) (first_error_line_ (stderr build_result)))
    by (rewrite Hfirst; now left).
  apply first_error_line_in in Hin as (line & Hnth & Hm).
  destruct (nth_error_split _ _ Hnth) as (pre & rest & Hl & Hlen).
  pose proof (first_error_line_count (stderr build_result)) as Hcount.
  rewrite Hfirst, Hl, marker_count_app, marker_count_cons in Hcount.
  unfold is_marker_line at 1 in Hcount. rewrite Hm in Hcount.
  simpl in Hcount.
  assert (Hpre : marker_count pre = 0) by lia.
  assert (Hrest : marker_count rest = 0) by lia.
  apply marker_count_zero in Hpre, Hrest.
  exists pre, line, rest. split; [exact Hl|]. split; [exact Hlen|].
  split.
  { unfold re_match in Hm.
    destruct (match_items first_error_line_re line) as [ps|] eqn:E;
      [|discriminate].
    injection Hm as <-.
    destruct (match_items_sound _ _ _ E) as [Ha [tl ->]].
    now apply shape_of_pieces. }
  split; [apply Forall_app; now split|].
  unfold last_10_log_lines, slice. rewrite Hl, <- Hlen.
  rewrite skipn_app, skipn_all2 by lia.
  replace (List.length pre + 2 - List.length pre) with 2 by lia.
  cbn [app]. rewrite Forall_forall in Hrest. apply Forall_forall.
  intros l Hin.
  assert (In l (skipn 2 (line :: rest))) as Hin2.
  { rewrite <- (firstn_skipn (List.length pre + 12 - (List.length pre + 2))
                             (skipn 2 (line :: rest))).
    apply in_or_app. now left. }
  clear Hin. rename Hin2 into Hin. cbn [skipn] in Hin.
  destruct rest as [|r0 rest]; [destruct Hin|].
  simpl in Hin. apply Hrest. right. exact Hin.
Qed.

Lemma classified_marker_witness :
  exists pre line rest,
    stderr Samples.foo_failed = pre ++ line :: rest
    /\ List.length pre = 0
    /\ marker_shape line (str "abcdefghijklmnopqrstuvwxyz123456")
                    (str "foo-1.2.3")
    /\ Forall (fun l => is_marker_line l = false) (pre ++ rest)
    /\ Forall (fun l => is_marker_line l = false) Samples.ten_lines.
Proof.
  refine (classified_marker_is_unique Samples.foo_failed 0
            {| failing_drv_hash := str "abcdefghijklmnopqrstuvwxyz123456";
               failing_pname_version := str "foo-1.2.3";
               excerpt := Samples.ten_lines |} _).
  vm_compute; reflexivity.
Defined.

(** *** The substitution passes *)

(** X9: the normaliser only deletes characters, and never a line break:
    the pure text is the joined excerpt with some characters left out, and
    it has as many line breaks as the joined excerpt. *)
Theorem pure_only_deletes_within_lines (last_10 : list text) :
  Subseq (last_10_log_lines_pure last_10) (join [] last_10)
  /\ line_breaks (last_10_log_lines_pure last_10)
     = line_breaks (join [] last_10)
  /\ List.length (last_10_log_lines_pure last_10)
     <= List.length (join [] last_10).
Proof.
  assert (Hsub : Subseq (last_10_log_lines_pure last_10) (join [] last_10)).
  { unfold last_10_log_lines_pure.
    repeat (eapply subseq_trans; [apply sub_subseq|]). apply subseq_refl. }
  split; [exact Hsub|]. split; [|now apply subseq_length].
  unfold last_10_log_lines_pure.
  now rewrite !sub_line_breaks by reflexivity.
Qed.

Lemma plain_without (cls : ascii -> bool) (s : text) :
  (forall c, cls c = true ->
             (digit c || exactly ">" c || exactly "/" c)%bool = true) ->
  plain s = true -> forallb (fun c => negb (cls c)) s = true.
Proof.
  intros Hcls Hs. unfold plain in Hs. rewrite forallb_forall in Hs.
  apply forallb_forall. intros c Hin. specialize (Hs c Hin).
  destruct (cls c) eqn:E; [|reflexivity].
  rewrite (Hcls c E) in Hs. discriminate.
Qed.

(** X10: an excerpt whose text holds no digit, no [>] and no [/] passes the
    normaliser unchanged. *)
Theorem pure_of_plain_text (last_10 : list text) :
  plain (join [] last_10) = true ->
  last_10_log_lines_pure last_10 = join [] last_10.
Proof.
  intros Hp. unfold last_10_log_lines_pure.
  assert (Hd : forallb (fun c => negb (digit c)) (join [] last_10) = true).
  { apply plain_without; [|exact Hp]. intros c ->. reflexivity. }
  assert (Hs : forallb (fun c => negb (exactly "/" c)) (join [] last_10) = true).
  { apply plain_without; [|exact Hp]. intros c ->. apply orb_true_r. }
  assert (Hg : forallb (fun c => negb (exactly ">" c)) (join [] last_10) = true).
  { apply plain_without; [|exact Hp]. intros c ->.
    now rewrite orb_true_r. }
  rewrite (sub_id decimal_seconds_re)
    by (apply (search_without_first_class _ digit); [reflexivity|exact Hd]).
  rewrite (sub_id clock_re)
    by (apply (search_without_first_class _ digit); [reflexivity|exact Hd]).
  rewrite (sub_id minutes_re)
    by (apply (search_without_first_class _ digit); [reflexivity|exact Hd]).
  rewrite (sub_id seconds_re)
    by (apply (search_without_first_class _ digit); [reflexivity|exact Hd]).
  rewrite (sub_id store_path_re)
    by (apply (search_without_first_class _ (exactly "/"));
        [reflexivity|exact Hs]).
  rewrite (sub_id bazel_re)
    by (apply (search_without_first_class _ (exactly ">"));
        [reflexivity|exact Hg]).
  rewrite (sub_id info_re)
    by (apply (search_without_first_class _ (exactly ">"));
        [reflexivity|exact Hg]).
  apply sub_id.
  apply (search_without_first_class _ digit); [reflexivity|exact Hd].
Qed.

Lemma pure_of_plain_witness :
  last_10_log_lines_pure [Samples.eol "configure: error: libbar is required"]
  = join [] [Samples.eol "configure: error: libbar is required"].
Proof. apply pure_of_plain_text. reflexivity. Defined.

(** *** Package identity and attribute *)

Lemma split_snoc (name version : text) :
  ~ In "-"%char version ->
  exists l, split "-" (name ++ str "-" ++ version) = l ++ [version]
            /\ join (str "-") l = name /\ l <> [].
Proof.
  intros Hv. induction name as [|c name (l & Hs & Hj & Hne)].
  - exists [[]]. simpl. rewrite (split_free "-" version Hv). now repeat split.
  - cbn [app split]. rewrite Hs.
    destruct (Ascii.eqb c "-") eqn:E.
    + apply Ascii.eqb_eq in E. subst c. exists ([] :: l).
      repeat split; [|discriminate].
      destruct l as [|p l]; [contradiction|]. simpl in *. now rewrite Hj.
    + destruct l as [|p l]; [contradiction|]. exists ((c :: p) :: l).
      repeat split; [|discriminate].
      destruct l; simpl in *; now rewrite <- Hj.
Qed.

(** X11: [split_pname_version] undoes the joining of a name and a version
    without hyphen: whatever hyphens the name holds, the pair comes back. *)
Theorem split_pname_version_of_joined (name version : text) :
  ~ In "-"%char version ->
  split_pname_version (name ++ str "-" ++ version) = (name, version).
Proof.
  intros Hv. unfold split_pname_version.
  destruct (split_snoc name version Hv) as (l & -> & Hj & _).
  now rewrite removelast_last, last_last, Hj.
Qed.

Lemma split_of_joined_witness :
  split_pname_version (str "python3.12-jax-cuda12" ++ str "-" ++ str "0.4.28")
  = (str "python3.12-jax-cuda12", str "0.4.28").
Proof.
  apply split_pname_version_of_joined. vm_compute. intuition discriminate.
Defined.

(** X12: for the package name and version of a Python package of one of
    the four known interpreters, the attribute the issue is filed for is
    the name under the package set of that interpreter. *)
Theorem failing_attr_of_python_package (name version : text) :
  ~ In "-"%char version ->
  let attr_for prefix :=
    pname_to_attr
      (fst (split_pname_version (str prefix ++ name ++ str "-" ++ version))) in
  attr_for "python3.9-"%string = str "python39Packages." ++ name
  /\ attr_for "python3.10-"%string = str "python310Packages." ++ name
  /\ attr_for "python3.11-"%string = str "python311Packages." ++ name
  /\ attr_for "python3.12-"%string = str "python312Packages." ++ name.
Proof.
  intros Hv attr_for. unfold attr_for.
  repeat split; rewrite app_assoc; unfold split_pname_version;
    match goal with
    | |- context [split "-" (?n ++ str "-" ++ version)] =>
        destruct (split_snoc n version Hv) as (l & -> & Hj & _)
    end;
    rewrite removelast_last, Hj; reflexivity.
Qed.

Lemma failing_attr_of_python_witness :
  pname_to_attr
    (fst (split_pname_version
            (str "python3.12-" ++ str "jax-cuda12" ++ str "-" ++ str "0.4.28")))
  = str "python312Packages." ++ str "jax-cuda12".
Proof.
  refine (proj2 (proj2 (proj2
    (failing_attr_of_python_package (str "jax-cuda12") (str "0.4.28") _)))).
  vm_compute. intuition discriminate.
Defined.

(** *** The tags *)

Local Open Scope Z_scope.

Lemma w64_range (x : Z) : 0 <= w64 x < 2 ^ 64.
Proof. unfold w64. apply Z.mod_pos_bound. lia. Qed.

Lemma log2_below_64 (a : Z) : 0 <= a < 2 ^ 64 -> Z.log2 a < 64.
Proof.
  intros [Ha Ha']. destruct (Z.eq_dec a 0) as [->|Hne]; [simpl; lia|].
  apply Z.log2_lt_pow2; lia.
Qed.

Lemma lxor_range (a b : Z) :
  0 <= a < 2 ^ 64 -> 0 <= b < 2 ^ 64 -> 0 <= Z.lxor a b < 2 ^ 64.
Proof.
  intros Ha Hb.
  assert (Hnn : 0 <= Z.lxor a b) by (apply Z.lxor_nonneg; lia).
  split; [exact Hnn|].
  destruct (Z.eq_dec (Z.lxor a b) 0) as [->|Hne]; [lia|].
  apply Z.log2_lt_pow2; [lia|].
  pose proof (Z.log2_lxor a b (proj1 Ha) (proj1 Hb)) as Hl.
  pose proof (log2_below_64 a Ha). pose proof (log2_below_64 b Hb). lia.
Qed.

Lemma half_round_range (a b c d s t : Z) : in64 (half_round a b c d s t).
Proof.
  unfold half_round, in64, rotl.
  repeat split; try apply w64_range;
    try (apply lxor_range; apply w64_range).
Qed.

Lemma single_round_range (v : sipstate) : in64 (single_round v).
Proof.
  destruct v as [[[v0 v1] v2] v3]. unfold single_round.
  destruct (half_round v0 v1 v2 v3 13 16) as [[[a b] c] d].
  pose proof (half_round_range c b a d 17 21) as H.
  destruct (half_round c b a d 17 21) as [[[c' b'] a'] d'].
  unfold in64 in *. tauto.
Qed.

Lemma siphash13_range (key0 key1 : Z) (src : list ascii) :
  0 <= siphash13 key0 key1 src < 2 ^ 64.
Proof.
  unfold siphash13.
  destruct (sip_blocks _ _ src) as [v tail].
  destruct (absorb v _) as [[[v0 v1] v2] v3].
  pose proof (single_round_range
                (single_round (single_round (v0, v1, Z.lxor v2 255, v3)))) as H.
  destruct (single_round (single_round (single_round _)))
    as [[[x0 x1] x2] x3].
  unfold in64 in H. destruct H as (H0 & H1 & H2 & H3).
  apply lxor_range; now apply lxor_range.
Qed.

Lemma hash_range (secret : HashSecret) (s : text) :
  - 2 ^ 63 <= hash secret s < 2 ^ 63 /\ hash secret s <> -1.
Proof.
  unfold hash. destruct s as [|c s]; [lia|].
  pose proof (siphash13_range (k0 secret) (k1 secret) (c :: s)) as H.
  unfold signed64.
  destruct (siphash13 _ _ _ <? 2 ^ 63) eqn:E;
    [apply Z.ltb_lt in E|apply Z.ltb_ge in E];
    match goal with |- context [if ?x =? -1 then _ else _] =>
      destruct (x =? -1) eqn:E1;
      [apply Z.eqb_eq in E1|apply Z.eqb_neq in E1]
    end; lia.
Qed.

(** X13: both tags are integers of the signed 64-bit range, and neither is
    ever -1; a tag can be negative, so that its query starts with a minus
    sign. *)
Theorem tags_are_signed_64_bit
    (secret : HashSecret) (pname_version pure drv_hash : text) :
  (- 2 ^ 63 <= logs_tag secret pname_version pure < 2 ^ 63
   /\ logs_tag secret pname_version pure <> -1)
  /\ (- 2 ^ 63 <= drv_tag secret drv_hash < 2 ^ 63
      /\ drv_tag secret drv_hash <> -1).
Proof.
  unfold logs_tag, drv_tag.
  pose proof (hash_range secret
                (str "nixpkgs-upkeep " ++ pname_version ++ str " " ++ pure))
    as Hlogs.
  pose proof (hash_range secret (str "nixpkgs-upkeep " ++ drv_hash)) as Hdrv.
  split; assumption.
Qed.

Lemma str_inj (a b : string) : str a = str b -> a = b.
Proof.
  unfold str. intros H.
  rewrite <- (string_of_list_ascii_of_string a),
          <- (string_of_list_ascii_of_string b).
  now rewrite H.
Qed.

Lemma repr_inj (a b : Z) : repr a = repr b -> a = b.
Proof.
  unfold repr. intros H. apply str_inj in H.
  apply DecimalZ.to_int_inj.
  pose proof (NilEmpty.isi (Z.to_int a)) as Ha.
  pose proof (NilEmpty.isi (Z.to_int b)) as Hb.
  rewrite H in Ha. congruence.
Qed.

(** X14: two tags give the same search query only if they are the same
    tag. *)
Theorem search_query_determines_tag (tag1 tag2 : Z) :
  search_query tag1 = search_query tag2 -> tag1 = tag2.
Proof.
  unfold search_query. intros H. apply app_inv_tail in H.
  now apply repr_inj.
Qed.

Lemma search_query_witness :
  search_query 2640490134252481877 = search_query (2640490134252481876 + 1)
  /\ 2640490134252481877 = 2640490134252481876 + 1.
Proof.
  assert (H : search_query 2640490134252481877
              = search_query (2640490134252481876 + 1)) by reflexivity.
  split; [exact H|]. exact (search_query_determines_tag _ _ H).
Defined.

Local Close Scope Z_scope.

(** *** The run of a classified failure *)

Lemma classify_conditions (build_result : ProcessResult) (ix : nat)
    (rec : FailureRecord) :
  classify build_result = Classified ix rec ->
  (returncode build_result =? 0)%Z = false
  /\ contains (str "no space left on device")
              (lower (join [] (stderr build_result))) = false
  /\ contains (str "Killed") (join [] (stderr build_result)) = false.
Proof.
  unfold classify.
  destruct (returncode build_result =? 0)%Z; [discriminate|].
  destruct (contains _ (lower _)); [discriminate|].
  destruct (contains _ _); [discriminate|]. now intros _.
Qed.

(** *** The issue *)

Lemma join_last (sep : text) (l : list text) (x : text) :
  l <> [] -> join sep (l ++ [x]) = join sep l ++ sep ++ x.
Proof.
  induction l as [|p l IH]; intros Hne; [contradiction|].
  destruct l as [|q l]; [reflexivity|].
  change (join sep ((p :: q :: l) ++ [x]))
    with (p ++ sep ++ join sep ((q :: l) ++ [x])).
  rewrite IH by discriminate.
  change (join sep (p :: q :: l)) with (p ++ sep ++ join sep (q :: l)).
  now rewrite <- !app_assoc.
Qed.

(** The body of an issue ends with the line of the two tags. *)
Lemma issue_body_tail
    (a : Args) (w : World) (stderr_utf8 : list text) (ix : nat)
    (failing_attr commit : text)
    (attr_maintainers failing_maintainers : list Handle)
    (nixpkgs_config nix_info : text) (logs drv : Z) :
  exists pre,
    issue_body a w stderr_utf8 ix failing_attr commit
               attr_maintainers failing_maintainers nixpkgs_config nix_info
               logs drv
    = pre ++ str "- Internal tags: " ++ repr logs ++ str " "
          ++ repr drv ++ [newline].
Proof.
  set (tags := str "- Internal tags: " ++ repr logs ++ str " " ++ repr drv).
  assert (Htags : str "- Internal tags: " ++ repr logs ++ str " "
                  ++ repr drv ++ [newline] = tags ++ [newline])
    by (unfold tags; now rewrite <- !app_assoc).
  rewrite Htags. unfold issue_body. fold tags.
  match goal with
  | |- exists pre, join ?sep ?l = _ =>
      change l with ((removelast (removelast l) ++ [tags]) ++ [[]]);
      exists (join sep (removelast (removelast l)) ++ sep)
  end.
  rewrite join_last
    by (intros E; apply app_eq_nil in E as [_ E]; discriminate).
  rewrite join_last by discriminate.
  now rewrite app_nil_r, <- !app_assoc.
Qed.

(** The text of either tag occurs in a text that ends with their line. *)
Lemma tags_occur (pre : text) (logs drv : Z) :
  let body := pre ++ str "- Internal tags: " ++ repr logs ++ str " "
                  ++ repr drv ++ [newline] in
  contains (repr logs) body = true /\ contains (repr drv) body = true.
Proof.
  intros body. unfold body. split.
  - rewrite (app_assoc pre). apply contains_infix.
  - rewrite (app_assoc pre), (app_assoc (pre ++ _)), (app_assoc (_ ++ repr logs)).
    apply contains_infix.
Qed.

(** *** The ways of a run *)

Lemma classified_run_of_main
    (a : Args) (w : World) (build_result : ProcessResult) (ix : nat)
    (rec : FailureRecord) :
  classify build_result = Classified ix rec ->
  classified_run a w (returncode build_result) rec
                 (fst (run_script (main a w build_result)))
                 (snd (run_script (main a w build_result))).
Proof.
  intros H. destruct (classify_conditions _ _ _ H) as (Hrc & Hspace & Hkill).
  destruct (classify_classified _ _ _ H) as (m & Hfirst & ->).
  unfold main. rewrite Hrc, Hspace, Hkill, Hfirst.
  cbv beta iota zeta delta [List.length Nat.eqb negb].
  CanarySpec.script_step.
  change (search_query
            (logs_tag (hash_secret w) (group_of m 2)
               (last_10_log_lines_pure
                  (last_10_log_lines (stderr build_result) ix))))
    with (logs_query w
            {| failing_drv_hash := group_of m 1;
               failing_pname_version := group_of m 2;
               excerpt := last_10_log_lines (stderr build_result) ix |}).
  change (search_query (drv_tag (hash_secret w) (group_of m 1)))
    with (drv_query w
            {| failing_drv_hash := group_of m 1;
               failing_pname_version := group_of m 2;
               excerpt := last_10_log_lines (stderr build_result) ix |}).
  set (rec := {| failing_drv_hash := group_of m 1;
                 failing_pname_version := group_of m 2;
                 excerpt := last_10_log_lines (stderr build_result) ix |}).
  destruct (search_issues w 0 (logs_query w rec)) as [n1|] eqn:E1;
    [|now constructor].
  destruct (Z.gtb_spec n1 0) as [H1|H1]; [constructor; [exact E1|lia]|].
  destruct (search_issues w 1 (drv_query w rec)) as [n2|] eqn:E2;
    [|now apply (cr_drv_search_raises a w _ rec n1)].
  destruct (Z.gtb_spec n2 0) as [H2|H2];
    [apply (cr_drv_tag_known a w _ rec n1 n2); try assumption; lia|].
  assert (Hclear : both_clear w rec n1 n2) by now repeat split.
  assert (Hattr : failing_attr_of rec
                  = pname_to_attr (fst (split_pname_version (group_of m 2))))
    by reflexivity.
  destruct (split_pname_version (group_of m 2)) as [failing_pname failing_version].
  cbn [fst] in Hattr. CanarySpec.script_step. rewrite <- Hattr.
  destruct (git_log w) as [git_stdout|e] eqn:Eg; CanarySpec.script_step;
    [|exact (cr_git_raises a w _ rec n1 n2 e Hclear Eg)].
  destruct (nix_eval w (attr a)) as [attr_maintainers|e] eqn:Ea;
    CanarySpec.script_step;
    [|exact (cr_attr_lookup_raises a w _ rec n1 n2 _ e Hclear Eg Ea)].
  destruct (nix_eval w (failing_attr_of rec)) as [failing_maintainers|e] eqn:Ef;
    CanarySpec.script_step;
    [|exact (cr_failing_lookup_raises a w _ rec n1 n2 _ _ e Hclear Eg Ea Ef)].
  destruct (config_nix w) as [config|] eqn:Ec; CanarySpec.script_step;
    [|exact (cr_no_config a w _ rec n1 n2 _ _ _ Hclear Eg Ea Ef Ec)].
  destruct (nix_info_out w) as [nix_info_stdout|e] eqn:Ei;
    CanarySpec.script_step;
    [|exact (cr_nix_info_raises a w _ rec n1 n2 _ _ _ _ e
               Hclear Eg Ea Ef Ec Ei)].
  destruct (assignee failing_maintainers) as [assignees|] eqn:Es;
    CanarySpec.script_step;
    [|exact (cr_assignee_no_string a w _ rec n1 n2 _ _ _ _ _
               Hclear Eg Ea Ef Ec Ei Es)].
  match goal with
  | |- context [gh_run w ?args] =>
      set (argv := args);
      assert (Hargs : issue_args w rec assignees argv)
        by (split; [reflexivity|apply issue_body_tail])
  end.
  destruct (gh_run w argv) as [gh_rc|e] eqn:Egh; CanarySpec.script_step;
    [|exact (cr_gh_not_started a w _ rec n1 n2 _ _ _ _ _ _ _ e
               Hclear Eg Ea Ef Ec Ei Es Hargs Egh)].
  destruct (Z.eqb_spec gh_rc 0) as [Hgh|Hgh].
  - subst gh_rc.
    exact (cr_filed a w _ rec n1 n2 _ _ _ _ _ _ _
             Hclear Eg Ea Ef Ec Ei Es Hargs Egh).
  - exact (cr_gh_fails a w _ rec n1 n2 _ _ _ _ _ _ _ gh_rc
             Hclear Eg Ea Ef Ec Ei Es Hargs Egh Hgh).
Qed.

(** X15: the run of a classified failure goes one of thirteen ways,
    decided by the answers of the world in this order: the sleep, the
    search for the logs tag, the search for the build tag only when the
    first search counted nothing, then [git], the two maintainer lookups,
    the configuration file, [nix-info], the assignees and [gh].  A search
    that raises, a tool that cannot be started or whose output cannot be
    read, a maintainer entry without its handle, a missing configuration
    file, a handle that is no string and a failing [gh] end the run with
    an uncaught exception; a search that counts an issue ends it with 0;
    and only a [gh] that returned 0 ends it with the return code of the
    build. *)
Theorem main_classified_run
    (a : Args) (w : World) (build_result : ProcessResult) (ix : nat)
    (rec : FailureRecord) :
  classify build_result = Classified ix rec ->
  classified_run a w (returncode build_result) rec
                 (trace a w build_result) (outcome a w build_result).
Proof.
  intros H. unfold trace, outcome.
  pose proof (classified_run_of_main a w build_result ix rec H) as Hrun.
  destruct (run_script (main a w build_result)) as [t o]. exact Hrun.
Qed.

Lemma main_classified_run_witness :
  classified_run Samples.foo_args Samples.other_world
    (returncode Samples.foo_failed)
    {| failing_drv_hash := str "abcdefghijklmnopqrstuvwxyz123456";
       failing_pname_version := str "foo-1.2.3";
       excerpt := Samples.ten_lines |}
    (trace Samples.foo_args Samples.other_world Samples.foo_failed)
    (outcome Samples.foo_args Samples.other_world Samples.foo_failed)
  /\ outcome Samples.foo_args Samples.other_world Samples.foo_failed
     = Uncaught KeyError.
Proof.
  split; [|vm_compute; reflexivity].
  apply (main_classified_run _ _ _ 0). vm_compute; reflexivity.
Defined.

(** X16: [gh] is called only for a classified failure for which both
    searches answered with a count that is not above zero and whose
    configuration file could be read; and a run that called [gh] never
    exits with 0. *)
Theorem report_needs_two_clear_searches
    (a : Args) (w : World) (build_result : ProcessResult) :
  reported (trace a w build_result) = true ->
  (exists ix rec n1 n2 config,
      classify build_result = Classified ix rec
      /\ search_issues w 0 (logs_query w rec) = Some n1 /\ (n1 <= 0)%Z
      /\ search_issues w 1 (drv_query w rec) = Some n2 /\ (n2 <= 0)%Z
      /\ config_nix w = Some config)
  /\ outcome a w build_result <> Exit 0.
Proof.
  intros Hrep.
  assert (Hne : trace a w build_result <> []).
  { intros E. rewrite E in Hrep. discriminate. }
  destruct (searched_run_classified a w build_result Hne) as (ix & rec & Hc).
  destruct (classify_conditions _ _ _ Hc) as (Hrc & _).
  apply Z.eqb_neq in Hrc.
  pose proof (classified_run_of_main a w build_result ix rec Hc) as Hrun.
  fold (trace a w build_result) (outcome a w build_result) in Hrun.
  destruct Hrun as
    [ E1 | n1 E1 H1 | n1 E1 H1 E2 | n1 n2 E1 H1 E2 H2
    | n1 n2 e Hclear Eg
    | n1 n2 git_stdout e Hclear Eg Ea
    | n1 n2 git_stdout am e Hclear Eg Ea Ef
    | n1 n2 git_stdout am fm Hclear Eg Ea Ef Ec
    | n1 n2 git_stdout am fm config e Hclear Eg Ea Ef Ec Ei
    | n1 n2 git_stdout am fm config info Hclear Eg Ea Ef Ec Ei Es
    | n1 n2 git_stdout am fm config info asg argv e
        Hclear Eg Ea Ef Ec Ei Es Hargs Egh
    | n1 n2 git_stdout am fm config info asg argv gh_rc
        Hclear Eg Ea Ef Ec Ei Es Hargs Egh Hgh
    | n1 n2 git_stdout am fm config info asg argv
        Hclear Eg Ea Ef Ec Ei Es Hargs Egh ];
    try discriminate Hrep;
    destruct Hclear as (E1 & H1 & E2 & H2).
  - split; [now exists ix, rec, n1, n2, config|discriminate].
  - split; [now exists ix, rec, n1, n2, config|]. congruence.
Qed.

Lemma report_needs_witness :
  outcome Samples.foo_args Samples.quiet_world Samples.foo_failed <> Exit 0.
Proof.
  refine (proj2 (report_needs_two_clear_searches
                   Samples.foo_args Samples.quiet_world Samples.foo_failed _)).
  vm_compute; reflexivity.
Defined.

(** X18: every call of [gh] in a run is the last step of a run that
    searched twice, for a logs tag and for a build tag, with neither search
    counting an issue; the body it hands to [gh], the last argument, ends
    with the line of exactly these two tags in decimal, so the text of
    either tag occurs in the issue, which is what the search of a later
    run looks for. *)
Theorem filed_issue_carries_searched_tags
    (a : Args) (w : World) (build_result : ProcessResult)
    (argv : list text) (gh_rc : Z) :
  In (GhIssueCreate argv gh_rc) (trace a w build_result) ->
  exists logs drv n1 n2 pre,
    nth_error (trace a w build_result) 1
    = Some (SearchIssues (search_query logs) (Some n1))
    /\ nth_error (trace a w build_result) 2
       = Some (SearchIssues (search_query drv) (Some n2))
    /\ (n1 <= 0)%Z /\ (n2 <= 0)%Z
    /\ last (trace a w build_result) (Sleep 0) = GhIssueCreate argv gh_rc
    /\ last argv []
       = pre ++ str "- Internal tags: " ++ repr logs ++ str " "
             ++ repr drv ++ [newline]
    /\ contains (repr logs) (last argv []) = true
    /\ contains (repr drv) (last argv []) = true.
Proof.
  intros Hin.
  assert (Hne : trace a w build_result <> []).
  { intros E. rewrite E in Hin. contradiction. }
  destruct (searched_run_classified a w build_result Hne) as (ix & rec & Hc).
  pose proof (classified_run_of_main a w build_result ix rec Hc) as Hrun.
  fold (trace a w build_result) (outcome a w build_result) in Hrun.
  exists (logs_tag (hash_secret w) (failing_pname_version rec)
                   (last_10_log_lines_pure (excerpt rec))),
         (drv_tag (hash_secret w) (failing_drv_hash rec)).
  destruct Hrun as
    [ E1 | n1 E1 H1 | n1 E1 H1 E2 | n1 n2 E1 H1 E2 H2
    | n1 n2 e Hclear Eg
    | n1 n2 git_stdout e Hclear Eg Ea
    | n1 n2 git_stdout am e Hclear Eg Ea Ef
    | n1 n2 git_stdout am fm Hclear Eg Ea Ef Ec
    | n1 n2 git_stdout am fm config e Hclear Eg Ea Ef Ec Ei
    | n1 n2 git_stdout am fm config info Hclear Eg Ea Ef Ec Ei Es
    | n1 n2 git_stdout am fm config info asg argv' e
        Hclear Eg Ea Ef Ec Ei Es Hargs Egh
    | n1 n2 git_stdout am fm config info asg argv' gh_rc'
        Hclear Eg Ea Ef Ec Ei Es Hargs Egh Hgh
    | n1 n2 git_stdout am fm config info asg argv'
        Hclear Eg Ea Ef Ec Ei Es Hargs Egh ];
    cbn [searched app In] in Hin;
    repeat (destruct Hin as [Hin|Hin]; try discriminate Hin);
    try contradiction;
    injection Hin as -> <-;
    destruct Hclear as (_ & H1 & _ & H2);
    destruct Hargs as (_ & pre & Hbody);
    unfold tags_line in Hbody;
    exists n1, n2, pre;
    repeat split; try assumption;
    rewrite Hbody; apply tags_occur.
Qed.

Lemma filed_issue_witness :
  exists argv logs drv n2,
    In (GhIssueCreate argv 0)
       (trace Samples.foo_args Samples.quiet_world Samples.foo_failed)
    /\ nth_error (trace Samples.foo_args Samples.quiet_world
                        Samples.foo_failed) 2
       = Some (SearchIssues (search_query drv) (Some n2))
    /\ contains (repr logs) (last argv []) = true
    /\ contains (repr drv) (last argv []) = true.
Proof.
  assert (Hlast : exists argv,
             nth_error (trace Samples.foo_args Samples.quiet_world
                              Samples.foo_failed) 8
             = Some (GhIssueCreate argv 0))
    by (eexists; vm_compute; reflexivity).
  destruct Hlast as [argv Hnth].
  pose proof (nth_error_In _ _ Hnth) as Hin.
  destruct (filed_issue_carries_searched_tags _ _ _ _ _ Hin)
    as (logs & drv & n1 & n2 & pre & _ & Hdrv & _ & _ & _ & _ & Hl & Hd).
  exists argv, logs, drv, n2.
  split; [exact Hin|]. split; [exact Hdrv|]. split; [exact Hl|exact Hd].
Defined.

End CanaryMore.
